(* ===== verification/_CoqProject ===== *)
-Q . S2P
Prelude.v
TagString.v
StdToString.v
Geometry.v
Detector.v
Node.v
