(* ===== verification/Prelude.v ===== *)
(** * Verification of agimus-vision's AprilTag tracker

    The repository tracks AprilTag fiducial markers in a camera stream and
    publishes each marker's pose.  Its source under [src/] is
    - [src/src/tracker_object/detector_apriltag.cpp]: the class
      [DetectorAprilTag] (one instance per configured tag id) with
      [analyseImage], [detect], [computePose], [compute3DPoints] and
      [drawDebug], and the two static members shared by every instance, the
      recognition engine [Apriltag_detector] and the depth map [_depth];
    - [src/include/agimus_vision/tracker_object/node.hpp]: the declaration of
      the ROS node [Node] that owns the detectors in a [std::map] keyed by tag
      id, the camera parameters and the current image.  Its implementation
      (node.cpp) and the base class [Detector] (detector.hpp) are not under
      [src/]: what they do is modelled from the spec.

    ** How the parts interact

    Per frame, [analyseImage] stores the depth map in the shared static
    [_depth] and runs the recognition engine once; every detector then runs
    [detect], which scans the engine's detections for the first message
    ending with [" " + std::to_string(tag_id)], copies its polygon into
    [_image_points], moves the acquisition state
    [no_object -> newly_acquired_object -> already_acquired_object] and calls
    [computePose].  [computePose] builds the four 3D corners of the tag
    ([compute3DPoints]), converts the four pixel corners to normalised
    coordinates, and either solves the pose from the depth map (first
    acquisition) or refines the previous pose by virtual visual servoing.
    The node runs this pass for every registered detector in key order and
    publishes the poses of those that succeeded.

    ** Files, and what they model

    - [Prelude] (this file): the option-monad notation [x <- c ;; k] in
      [agimus_scope], the tactics [inv] and [simpl_opt], the hint databases
      [agimus] and [agimus_rw], the relation [opt_rel] between two
      results that may be undefined, and the shared lemmas on lists and on
      strings seen as lists of characters ([chars]).
    - [TagString]: lines 35-42 of detector_apriltag.cpp.  [to_string] is
      [std::to_string(int)], [tag_of] the text [" " + to_string id], and
      [tag_matches] the test [stag <= smsg && msg.compare(smsg - stag, stag,
      tag) == 0] with [compare] as [substring].
    - [StdToString]: the body of [std::to_string(int)] in libstdc++, which
      line 35 calls (library code, not mapped to this repository): the
      32-bit unsigned magnitude [std_uval] ([(unsigned)~val + 1u] for a
      negative value), the digit count [to_chars_len], the writer
      [to_chars_10_impl] that stores two digits per iteration from the
      200-character table [digits_table], and [std_to_string], which fills a
      buffer of [__neg + __len] dashes.  Buffer stores out of range are
      [None].
    - [Geometry]: ViSP's data as records over [Q] ([vpImagePoint],
      [vpCameraParameters], [vpPoint], [vpHomogeneousMatrix]), the library's
      conversions [convertPointWithoutDistortion] and [convertPoint] and the
      projection [project] (written from their formulas: library code, not
      mapped to this repository), and [compute3DPoints] (lines 128-140)
      as the sequence of setter calls on one reused point.
    - [Detector]: the instance record [DetectorAprilTag] (the members of
      [Detector] and [DetectorAprilTag]), the shared statics as [Shared], the
      constructor [DetectorAprilTag_new], [analyseImage], [computePose] with
      its conversion loop [set_image_coords], [detect] with its scan
      [detect_loop] and transition [acquire], and [drawDebug] with its edge
      loop [draw_edges].  The ViSP pose algorithms are the class
      [PoseSolver] and the tag recogniser the class [AprilTagEngine]: the
      theorems are stated in Sections over any instance.  The module [Spec]
      is the spec's abstract acquisition machine; [frame_step] and
      [reachable] are the runs of consecutive frames of one detector.
    - [Node]: the record [Node] of node.hpp's members, the detector map as
      a key-sorted association list ([map_insert], [map_find]), and from the
      spec the callbacks [cameraInfoCallback], [frameCallback],
      [addAprilTagService], one pass of [spin] ([spin_once] with
      [detect_all] and [publish]), their interleavings [node_step], and
      runs of frames [node_run] recording the node after every pass.

    ** What the theorems show

    The claims are numbered C1-C29 in the doc comments of their theorems.
    - [detect] on every branch: no match (reset, points cleared), first
      match (points copied, state transition, pose), the result/state
      guarantee of the spec, that its pose-failure branch is dead code, and
      exactly when it reads out of range; the [assert] of [computePose]
      (line 122) never fails, as the same characterisation shows (C1-C5).
    - [computePose] on both paths: the RGB-D pose is taken whatever the
      previous pose, a failed RGB-D solve still reports success with the
      stale pose, refinement is warm-started and stores the residual of the
      new pose, and the camera round trip: exact pixels of the corners
      through the current pose give that pose back, for any solver with an
      exact pose as fixed point (C6-C9); the shared depth map is read only
      on first acquisition (C23); a miss keeps the pose, so a re-acquisition
      whose RGB-D solve fails reports the pose from before the miss (C28).
    - A refinement of [detect] to the spec's machine and the invariant kept
      by every frame (no points without object, four with one) (C10-C11);
      for an engine reporting four-corner polygons, every detector reached
      from a fresh one keeps its id, size and intrinsics and can be drawn
      (C12); the drawing calls of [drawDebug] (C13), and exactly when
      [drawDebug] reads out of range (C26).
    - The suffix test is the suffix relation, a message matches at most one
      id, and a message without a space matches no id (C14-C16); a matched
      message carries the detector's id as its last word, which decodes
      back to the id (C27); the reference corners and their square
      geometry (C17-C18); the spec's three-frame scenario (found, tracked
      and refined, lost) for every pose solver and detections (C19).
    - The node: each detector's new entry after a pass is what [detect]
      alone gives on the shared frame, and the publications are exactly
      those of the successful detectors in key order (C20-C21); along every
      interleaving of callbacks from an empty map, each detector sits under
      its own id and keeps the frame invariant (C22); composing the frame
      callback, the pass and [detect] ([node_run]), a tag shown on every
      frame keeps its detector in state [acquire] of the previous one and
      each pass publishes the pose of the detector it stored (C25); and
      every pass refines the spec's acquisition machine on the whole map,
      its publications included (C29).
    - Liveness of tracking: over any run of frames that all show the tag,
      every [detect] succeeds and the state is [already_acquired_object]
      from the second frame on ([run], C24).
    - Supporting lemmas that are not claims: libstdc++'s [std::to_string]
      on 32-bit ids terminates, equals [TagString.to_string] on every
      [int] (INT_MIN included) and prints a canonical numeral of at most 11
      characters ([StdToString]), which justifies reading line 35 through
      [to_string]; the points [computePose] hands to the solver depend only
      on the rational values of the size and corners ([Proper] instances
      for [Qeq] in [Geometry]); registration, key order of the map, one
      pass per image and exactly when a pass is undefined ([Node]).

    ** Bounds and fuel

    The loops of [detect], [computePose] and [drawDebug] are structural
    recursions over the lists they iterate (the engine's detections, the
    four reference points, the four colours), so those definitions are
    total; an out-of-range read of [_image_points] (undefined behaviour in
    C++) is the [None] result.  Tag ids are C++ [int] as [Z]; [to_string]
    is exact for every integer, and [StdToString.is_int] restricts the
    library model to 32 bits, where the unsigned arithmetic is written out
    modulo [2^32].  The two loops of libstdc++ ([__to_chars_len] and the
    writer) take fuel [loop_fuel v = 1 + log2 v]: each iteration divides
    the value by [10^4] or [100], so at least halves it, and the
    termination theorems show this fuel is never exhausted.  Coordinates
    are [double] in the code and exact rationals [Q] here, compared with
    [Qeq]; rounding is not modelled.

    ** Not modelled

    The ROS transport, tf2 broadcasting and topic publication (I/O), the
    pixel-level AprilTag decoding and the pose algorithms of ViSP (taken as
    interfaces), the rendering of [drawDebug] (its calls are modelled), the
    commented-out code of [drawDebug], the chessboard service and the
    parameter loading of [Node]'s constructor.  node.cpp (the bodies of
    [Node]'s methods) and detector.hpp (the base class [Detector]) are not
    under [src/]: the node's operations are modelled from the spec and
    from the class documentation of node.hpp (the publications of
    [publish]), which is why the node stays partly modelled.  The lines of
    the two source files left outside the map are includes, namespaces,
    blank lines and the commented-out block of [drawDebug].

    ** Open points

    The effect of a camera-parameter update on detectors already
    registered depends on whether [Detector] copies or aliases the node's
    intrinsics, which detector.hpp (not under [src/]) decides; the model
    copies them at registration, so [cameraInfoCallback] changes only the
    node's own set.  Nothing of the chessboard detector is in [src/]
    beyond the declaration of its service. *)

From Stdlib Require Import String Ascii List Arith Lia.
Import ListNotations.

(** ** The option monad of the development *)

Declare Scope agimus_scope.
Delimit Scope agimus_scope with agimus.

Notation "x <- c1 ;; c2" :=
  (match c1 with Some x => c2 | None => None end)
  (at level 61, c1 at next level, right associativity) : agimus_scope.

Notation "' pat <- c1 ;; c2" :=
  (match c1 with Some pat => c2 | None => None end)
  (at level 61, pat pattern, c1 at next level, right associativity) : agimus_scope.

(** ** Tactics *)

Ltac inv H := inversion H; subst; clear H.

(** Split every [match o with Some _ => _ | None => None end = Some _]
    hypothesis into the equation on [o] and the rest. *)
Ltac simpl_opt :=
  repeat match goal with
  | H : match ?o with Some _ => _ | None => None end = Some _ |- _ =>
      let E := fresh "E" in destruct o eqn:E; [|discriminate H]
  | H : Some _ = Some _ |- _ => inv H
  | H : None = Some _ |- _ => discriminate H
  end.

Create HintDb agimus.
Create Rewrite HintDb agimus_rw.

(** ** Lists *)

Lemma nth_error_Some_lt {A} (l : list A) i x :
  nth_error l i = Some x -> i < length l.
Proof. intros H. apply nth_error_Some. congruence. Qed.

Lemma nth_error_lt_Some {A} (l : list A) i :
  i < length l -> exists x, nth_error l i = Some x.
Proof.
  intros H. destruct (nth_error l i) eqn:E; eauto.
  apply nth_error_None in E. lia.
Qed.

(** The last [m] elements of a list of length at least [m] are a suffix
    of it, and a suffix of length [m] is exactly those elements. *)
Lemma skipn_suffix_iff {A} (l t : list A) :
  length t <= length l ->
  skipn (length l - length t) l = t <-> exists p, l = p ++ t.
Proof.
  intros Hle. split.
  - intros H. exists (firstn (length l - length t) l).
    rewrite <- H at 2. symmetry. apply firstn_skipn.
  - intros [p ->]. rewrite length_app.
    replace (length p + length t - length t) with (length p) by lia.
    rewrite skipn_app, skipn_all. replace (length p - length p) with 0 by lia.
    reflexivity.
Qed.

(** If two decompositions [p ++ x] and [q ++ y] of one list have [x] no
    longer than [y], then [x] is a suffix of [y]. *)
Lemma app_suffix_le {A} (p q x y : list A) :
  p ++ x = q ++ y -> length x <= length y -> exists r, y = r ++ x.
Proof.
  intros H Hle. exists (skipn (length q) p).
  assert (length q <= length p).
  { apply (f_equal (@length A)) in H. rewrite !length_app in H. lia. }
  replace y with (skipn (length q) (q ++ y))
    by (rewrite skipn_app, skipn_all, Nat.sub_diag; reflexivity).
  rewrite <- H, skipn_app. replace (length q - length p) with 0 by lia.
  reflexivity.
Qed.

(** ** Options *)

(** Two results both undefined, or both defined with related values. *)
Inductive opt_rel {A} (R : A -> A -> Prop) : option A -> option A -> Prop :=
  | opt_rel_None : opt_rel R None None
  | opt_rel_Some x y : R x y -> opt_rel R (Some x) (Some y).

#[export] Hint Constructors opt_rel : agimus.

Lemma Forall2_nth_error_rel {A} (R : A -> A -> Prop) (l l' : list A) (i : nat) :
  Forall2 R l l' -> opt_rel R (nth_error l i) (nth_error l' i).
Proof.
  intros H. revert i. induction H as [|x y l l' Hxy _ IH]; intros [|i];
    simpl; auto with agimus.
Qed.

(** ** Strings as lists of characters *)

(** [std::string] is a [string]; its characters as a list let the list
    lemmas above reason about it. *)
Abbreviation chars := list_ascii_of_string.

Lemma chars_app (s1 s2 : string) : chars (s1 ++ s2)%string = chars s1 ++ chars s2.
Proof. induction s1 as [|c s1 IH]; simpl; congruence. Qed.

Lemma chars_length (s : string) : String.length s = length (chars s).
Proof. induction s as [|c s IH]; simpl; congruence. Qed.

Lemma chars_inj (s1 s2 : string) : chars s1 = chars s2 -> s1 = s2.
Proof.
  intros H. rewrite <- (string_of_list_ascii_of_string s1), H.
  apply string_of_list_ascii_of_string.
Qed.

Lemma chars_substring n m (s : string) :
  chars (substring n m s) = firstn m (skipn n (chars s)).
Proof.
  revert n m. induction s as [|c s IH]; intros [|n] [|m]; simpl;
    rewrite ?IH; reflexivity.
Qed.

#[export] Hint Rewrite chars_app chars_substring : agimus_rw.
