(* ===== verification/TagString.v ===== *)
(** * Matching a decoded tag message against a tag id

    Models lines 35-42 of [src/src/tracker_object/detector_apriltag.cpp]
    (the body of the loop of [DetectorAprilTag::detect]): the tag text
    [" " + std::to_string(_tag_id)] and the test "[msg] ends with [tag]"
    written with [size] and [std::string::compare].  The theorems show that
    the test is exactly the suffix relation, that the decimal printing of an
    [int] round-trips, that one message matches at most one tag id, and
    that a matched message's last word ([last_word]) decodes back to the
    id. *)

From Stdlib Require Import String Ascii List Bool Arith ZArith Lia.
From Stdlib Require Import DecimalString DecimalZ.
From S2P Require Import Prelude.
Import ListNotations.

Local Open Scope string_scope.

(** ** Definitions *)

(** [std::to_string(int)]: the decimal digits of the value, with a leading
    ['-'] when it is negative and ["0"] for zero. *)
Definition to_string (z : Z) : string :=
  NilEmpty.string_of_int (Z.to_int z).

(** [std::string tag = " " + std::to_string( _tag_id );] *)
Definition tag_of (tag_id : Z) : string := " " ++ to_string tag_id.

(** [stag <= smsg && msg.compare( smsg - stag, stag, tag ) == 0]: the
    conjunction short-circuits, so the (unsigned) subtraction is only
    evaluated when it does not wrap. *)
Definition tag_matches (msg tag : string) : bool :=
  let stag := String.length tag in
  let smsg := String.length msg in
  Nat.leb stag smsg && String.eqb (substring (smsg - stag) stag msg) tag.

(** The abstract relation the code implements: [msg] ends with [tag]. *)
Definition ends_with (msg tag : string) : Prop := exists p, msg = p ++ tag.

(** The inverse of [to_string], used to state its round trip. *)
Definition of_string (s : string) : option Z :=
  option_map Z.of_int (NilEmpty.int_of_string s).

(** The characters before the first space of a list. *)
Fixpoint before_space (l : list ascii) : list ascii :=
  match l with
  | [] => []
  | c :: l => if Ascii.eqb c " " then [] else c :: before_space l
  end.

(** The last space-separated word of a message, as a decoder of the
    message format reads the id. *)
Definition last_word (msg : string) : string :=
  string_of_list_ascii (rev (before_space (rev (chars msg)))).

(** ** The suffix test *)

(** The direction of the suffix test that the other lemmas use. *)
Lemma tag_matches_suffix (msg tag : string) :
  tag_matches msg tag = true -> ends_with msg tag.
Proof.
  unfold tag_matches, ends_with.
  rewrite andb_true_iff, Nat.leb_le, String.eqb_eq, !chars_length.
  intros [Hle Heq]. apply (f_equal list_ascii_of_string) in Heq.
  rewrite chars_substring, firstn_all2 in Heq by (rewrite length_skipn; lia).
  destruct (proj1 (skipn_suffix_iff _ _ Hle) Heq) as [p Hp].
  exists (string_of_list_ascii p). apply chars_inj.
  rewrite chars_app, list_ascii_of_string_of_list_ascii. exact Hp.
Qed.

(** C14: the code's length-and-compare test is the suffix relation:
    [tag_matches msg tag] holds exactly when [msg] ends with [tag]. *)
Theorem tag_matches_spec (msg tag : string) :
  tag_matches msg tag = true <-> ends_with msg tag.
Proof.
  split; [apply tag_matches_suffix|].
  unfold tag_matches. intros [p ->].
  rewrite andb_true_iff, Nat.leb_le, String.eqb_eq, !chars_length.
  rewrite chars_app, length_app. split; [lia|].
  apply chars_inj. autorewrite with agimus_rw.
  replace (length (chars p) + length (chars tag) - length (chars tag))
    with (length (chars p)) by lia.
  rewrite skipn_app, skipn_all, Nat.sub_diag. apply firstn_all.
Qed.

(** ** Decimal printing *)

Lemma to_string_roundtrip (z : Z) : of_string (to_string z) = Some z.
Proof.
  unfold of_string, to_string. rewrite NilEmpty.isi. simpl.
  rewrite DecimalZ.of_to. reflexivity.
Qed.

Lemma to_string_inj (a b : Z) : to_string a = to_string b -> a = b.
Proof.
  intros H. apply (f_equal of_string) in H.
  rewrite !to_string_roundtrip in H. congruence.
Qed.

(** The digits of a decimal number are never a space. *)
Lemma uint_no_space d : ~ In " "%char (chars (NilEmpty.string_of_uint d)).
Proof.
  induction d; simpl; intros H; [exact H|..];
    destruct H as [H|H]; (discriminate H || contradiction).
Qed.

Lemma to_string_no_space (z : Z) : ~ In " "%char (chars (to_string z)).
Proof.
  unfold to_string, NilEmpty.string_of_int. destruct (Z.to_int z); simpl.
  - apply uint_no_space.
  - intros [H|H]; [discriminate H | exact (uint_no_space _ H)].
Qed.

(** Two space-free words preceded by a space that both end one list are
    the same word. *)
Lemma space_suffix_unique (p q a b : list ascii) :
  (p ++ " "%char :: a = q ++ " "%char :: b)%list ->
  ~ In " "%char a -> ~ In " "%char b -> a = b.
Proof.
  revert p q a b.
  assert (H : forall p q a b : list ascii,
    (p ++ " "%char :: a = q ++ " "%char :: b)%list ->
    ~ In " "%char b -> length a <= length b -> a = b).
  { intros p q a b Heq Hb Hle.
    destruct (app_suffix_le _ _ _ _ Heq ltac:(simpl; lia)) as [[|c r] Hr].
    - simpl in Hr. congruence.
    - simpl in Hr. injection Hr as _ Hr. exfalso. apply Hb.
      rewrite Hr. apply in_or_app. simpl. auto. }
  intros p q a b Heq Ha Hb.
  destruct (Nat.le_ge_cases (length a) (length b)); [eauto|].
  symmetry. eauto.
Qed.

(** C15: a decoded message matches the tag text of at most one tag id: two
    detectors with different ids never claim the same detection. *)
Theorem tag_matches_unique (msg : string) (a b : Z) :
  tag_matches msg (tag_of a) = true ->
  tag_matches msg (tag_of b) = true -> a = b.
Proof.
  intros [p Hp]%tag_matches_suffix [q Hq]%tag_matches_suffix.
  apply to_string_inj, chars_inj.
  apply (space_suffix_unique (chars p) (chars q));
    try apply to_string_no_space.
  apply (f_equal list_ascii_of_string) in Hp, Hq. unfold tag_of in *.
  autorewrite with agimus_rw in Hp, Hq. simpl in Hp, Hq. congruence.
Qed.

Lemma before_space_app (l1 l2 : list ascii) :
  ~ In " "%char l1 -> before_space (l1 ++ " "%char :: l2) = l1.
Proof.
  induction l1 as [|c l1 IH]; intros Hs; [reflexivity|]. simpl.
  destruct (Ascii.eqb_spec c " "); [subst; exfalso; apply Hs; left; reflexivity|].
  f_equal. apply IH. intros H. apply Hs. right. exact H.
Qed.

(** C27: round trip of the tag text: a message that the suffix test
    assigns to a detector carries that detector's id as its last
    space-separated word, and decoding that word gives the id back. *)
Theorem tag_matches_last_word (msg : string) (id : Z) :
  tag_matches msg (tag_of id) = true -> of_string (last_word msg) = Some id.
Proof.
  intros [p Hp]%tag_matches_suffix. unfold last_word.
  rewrite Hp. unfold tag_of. autorewrite with agimus_rw. simpl.
  rewrite rev_app_distr. simpl. rewrite <- app_assoc. simpl.
  rewrite before_space_app
    by (rewrite <- in_rev; apply to_string_no_space).
  rewrite rev_involutive, string_of_list_ascii_of_string.
  apply to_string_roundtrip.
Qed.

(** C16: a decoded message without a space, such as the bare ["7"], is
    claimed by no detector, whatever its id: the tag text starts with a
    space, so the suffix test needs one in the message. *)
Theorem tag_matches_needs_space (msg : string) (id : Z) :
  ~ In " "%char (chars msg) -> tag_matches msg (tag_of id) = false.
Proof.
  intros Hs. destruct (tag_matches msg (tag_of id)) eqn:E; [|reflexivity].
  apply tag_matches_suffix in E as [p Hp]. exfalso. apply Hs.
  rewrite Hp. unfold tag_of. autorewrite with agimus_rw.
  apply in_or_app. right. left. reflexivity.
Qed.

Lemma tag_matches_unique_witness :
  tag_matches "36h11 id: 3" (tag_of 3) = true /\
  tag_matches "36h11 id: 3" (tag_of 3) = true /\ 3%Z = 3%Z.
Proof.
  split; [vm_compute; reflexivity|]. split; [vm_compute; reflexivity|].
  apply (tag_matches_unique "36h11 id: 3"); vm_compute; reflexivity.
Defined.

Lemma tag_matches_last_word_witness :
  tag_matches "36h11 id: 13" (tag_of 13) = true /\
  of_string (last_word "36h11 id: 13") = Some 13%Z.
Proof.
  assert (H : tag_matches "36h11 id: 13" (tag_of 13) = true) by (vm_compute; reflexivity).
  split; [exact H|]. exact (tag_matches_last_word _ _ H).
Defined.

Lemma tag_matches_needs_space_witness :
  ~ In " "%char (chars "7") /\ tag_matches "7" (tag_of 7) = false.
Proof.
  assert (H : ~ In " "%char (chars "7")) by (simpl; intros [H|[]]; discriminate H).
  split; [exact H|]. exact (tag_matches_needs_space "7" 7 H).
Defined.
