(* ===== verification/StdToString.v ===== *)
(** * [std::to_string(int)] as libstdc++ computes it

    Line 35 of [src/src/tracker_object/detector_apriltag.cpp] builds the tag
    text with [std::to_string( _tag_id )].  [TagString.to_string] takes its
    meaning as the decimal printing of the integer.  This file models the
    algorithm of the C++ library that computes it (libstdc++'s
    [<bits/basic_string.h>] and [<bits/charconv.h>], GCC 11 and later):
    - [std_uval]: [__neg = __val < 0] and the magnitude
      [__neg ? (unsigned)~__val + 1u : __val] in 32-bit unsigned arithmetic;
    - [to_chars_len]: the digit count [__to_chars_len], a loop that divides by
      [10^4] (fuel: one more than the bit length, see [loop_fuel]);
    - [to_chars_10_impl]: the writer that stores two digits per iteration from
      the 200-character table [__digits] into the buffer, then the last one or
      two digits;
    - [std_to_string]: the buffer [string(__neg + __len, '-')] filled by the
      writer.
    Buffer writes out of range and reads past the table are undefined in
    C++ and give [None] here, as does running out of fuel.  The theorems
    show that both loops terminate within their fuel, the writer's result
    digit by digit, that the whole computation is [TagString.to_string] on
    every 32-bit [int] (INT_MIN included, where [-__val] would overflow),
    and the width of the tag text; they support the reading of line 35
    through [TagString.to_string] and are not claims of their own. *)

From Stdlib Require Import String Ascii List Bool Arith ZArith Lia.
From Stdlib Require Import DecimalString DecimalN DecimalPos.
From S2P Require Import Prelude TagString.
Import ListNotations.

Local Open Scope Z_scope.
Local Open Scope agimus_scope.

(** ** 32-bit arithmetic *)

Definition int_min : Z := - 2 ^ 31.
Definition int_max : Z := 2 ^ 31 - 1.

(** The values of C++ [int] (32 bits on the targets of the node). *)
Definition is_int (z : Z) : bool := (int_min <=? z) && (z <=? int_max).

(** The conversion to [unsigned] (32 bits): reduction modulo [2^32]. *)
Definition to_unsigned (z : Z) : Z := z mod 2 ^ 32.

Definition uadd (a b : Z) : Z := to_unsigned (a + b).
Definition usub (a b : Z) : Z := to_unsigned (a - b).

(** [const bool __neg = __val < 0;
     const unsigned __uval = __neg ? (unsigned)~__val + 1u : __val;] *)
Definition std_neg (val : Z) : bool := val <? 0.

Definition std_uval (val : Z) : Z :=
  if std_neg val then uadd (to_unsigned (Z.lnot val)) 1 else to_unsigned val.

(** ** The digit count [__to_chars_len] *)

(** Fuel of the loops: every iteration divides the value by at least
    [100], so the bit length plus one is enough. *)
Definition loop_fuel (v : Z) : nat := S (Z.to_nat (Z.log2 v)).

(** [for (;;) { if (__value < __base) return __n; if (__value < __b2)
    return __n + 1; if (__value < __b3) return __n + 2; if (__value < __b4)
    return __n + 3; __value /= __b4; __n += 4; }] with [__base = 10]. *)
Fixpoint to_chars_len_loop (fuel : nat) (value n : Z) : option Z :=
  match fuel with
  | O => None
  | S fuel =>
      if value <? 10 then Some n
      else if value <? 100 then Some (n + 1)
      else if value <? 1000 then Some (n + 2)
      else if value <? 10000 then Some (n + 3)
      else to_chars_len_loop fuel (value / 10000) (n + 4)
  end.

(** [unsigned __n = 1;] then the loop. *)
Definition to_chars_len (value : Z) : option Z :=
  to_chars_len_loop (loop_fuel value) value 1.

(** ** The writer [__to_chars_10_impl] *)

(** [constexpr char __digits[201]]: the two digits of [00] to [99]. *)
Definition digits_table : list ascii := list_ascii_of_string (
    "0001020304050607080910111213141516171819"
    ++ "2021222324252627282930313233343536373839"
    ++ "4041424344454647484950515253545556575859"
    ++ "6061626364656667686970717273747576777879"
    ++ "8081828384858687888990919293949596979899")%string.

(** [__digits[i]]; an index past the table is undefined. *)
Definition digit_char (i : Z) : option ascii :=
  if 0 <=? i then nth_error digits_table (Z.to_nat i) else None.

(** [c + v] on characters, as in ['0' + __val]. *)
Definition char_add (c : ascii) (v : Z) : ascii :=
  ascii_of_nat (nat_of_ascii c + Z.to_nat v).

(** [__first[i] = c] in a buffer of the string's length; [__first] is
    the offset [first] of the string's data. *)
Fixpoint replace_nth {A} (l : list A) (i : nat) (c : A) : list A :=
  match l, i with
  | [], _ => []
  | _ :: l, O => c :: l
  | x :: l, S i => x :: replace_nth l i c
  end.

Definition store (buf : list ascii) (i : Z) (c : ascii) : option (list ascii) :=
  if (0 <=? i) && (i <? Z.of_nat (length buf))
  then Some (replace_nth buf (Z.to_nat i) c) else None.

(** [while (__val >= 100) { auto const __num = (__val % 100) * 2;
    __val /= 100; __first[__pos] = __digits[__num + 1];
    __first[__pos - 1] = __digits[__num]; __pos -= 2; }] *)
Fixpoint to_chars_10_loop (fuel : nat) (buf : list ascii) (first pos val : Z)
    : option (list ascii * Z * Z) :=
  match fuel with
  | O => None
  | S fuel =>
      if 100 <=? val then
        let num := (val mod 100) * 2 in
        let val := val / 100 in
        hi <- digit_char (num + 1) ;;
        buf <- store buf (first + pos) hi ;;
        lo <- digit_char num ;;
        buf <- store buf (first + usub pos 1) lo ;;
        to_chars_10_loop fuel buf first (usub pos 2) val
      else Some (buf, pos, val)
  end.

(** [unsigned __pos = __len - 1;], the loop, then [if (__val >= 10) {
    auto const __num = __val * 2; __first[1] = __digits[__num + 1];
    __first[0] = __digits[__num]; } else __first[0] = '0' + __val;] *)
Definition to_chars_10_impl (buf : list ascii) (first len val : Z)
    : option (list ascii) :=
  ' (buf, _, val) <- to_chars_10_loop (loop_fuel val) buf first (usub len 1) val ;;
  if 10 <=? val then
    let num := val * 2 in
    hi <- digit_char (num + 1) ;;
    buf <- store buf (first + 1) hi ;;
    lo <- digit_char num ;;
    store buf first lo
  else store buf first (char_add "0" val).

(** [std::to_string(int __val)]: [string __str(__neg + __len, '-');
    __to_chars_10_impl(&__str[__neg], __len, __uval); return __str;] *)
Definition std_to_string (val : Z) : option string :=
  let neg := Z.b2z (std_neg val) in
  let uval := std_uval val in
  len <- to_chars_len uval ;;
  let buf := repeat "-"%char (Z.to_nat (uadd neg len)) in
  buf <- to_chars_10_impl buf neg len uval ;;
  Some (string_of_list_ascii buf).

(** ** The decimal digits the writer is meant to produce *)

(** [len] is the number of decimal digits of [v]. *)
Definition len_spec (v len : Z) : Prop :=
  1 <= len /\ v < 10 ^ len /\ (len = 1 \/ 10 ^ (len - 1) <= v).

(** The digit of weight [10^i]. *)
Definition digit_at (u : Z) (i : nat) : Z := (u / 10 ^ Z.of_nat i) mod 10.

(** The [len] low digits of [u], most significant first. *)
Definition ds_of (u : Z) (len : nat) : list Z :=
  map (fun t => digit_at u (len - 1 - t)) (seq 0 len).

(** The buffer after [k] iterations of the writer's loop: the last [2 k]
    digits are written, the rest still holds the ['-'] of the
    constructor. *)
Definition written (u : Z) (neg len k j : nat) : ascii :=
  if (j <? neg + (len - 2 * k))%nat then "-"%char
  else char_add "0" (digit_at u (neg + len - 1 - j)).

(** Digit lists as the Standard Library's decimal numbers, and their value. *)
Definition uint_digit (k : Z) (d : Decimal.uint) : Decimal.uint :=
  match k with
  | 0 => Decimal.D0 d | 1 => Decimal.D1 d | 2 => Decimal.D2 d
  | 3 => Decimal.D3 d | 4 => Decimal.D4 d | 5 => Decimal.D5 d
  | 6 => Decimal.D6 d | 7 => Decimal.D7 d | 8 => Decimal.D8 d
  | _ => Decimal.D9 d
  end.

Definition uint_of_digits (ds : list Z) : Decimal.uint :=
  fold_right uint_digit Decimal.Nil ds.

Definition horner (ds : list Z) (a : Z) : Z :=
  fold_left (fun a k => 10 * a + k) ds a.

(** The text [std::to_string] is meant to produce: an optional ['-'] and
    decimal digits, at least one, with no leading ['0'] unless the text is
    ["0"], and never ["-0"]. *)
Definition is_digit (c : ascii) : bool :=
  (48 <=? nat_of_ascii c)%nat && (nat_of_ascii c <=? 57)%nat.

Definition canonical_digits (cs : list ascii) : bool :=
  match cs with
  | [] => false
  | c :: rest =>
      is_digit c && forallb is_digit rest &&
      (negb (Ascii.eqb c "0") || (length rest =? 0)%nat)
  end.

Definition decimal_text (cs : list ascii) : bool :=
  match cs with
  | [] => false
  | c :: rest =>
      if Ascii.eqb c "-"
      then canonical_digits rest && negb (Ascii.eqb (hd "0"%char rest) "0")
      else canonical_digits cs
  end.

(** ** Arithmetic lemmas *)

Create HintDb std_to_string.

(** Case analysis on every comparison of naturals in the goal. *)
Ltac case_nat :=
  repeat match goal with
  | |- context [(?a <? ?b)%nat] => destruct (Nat.ltb_spec a b)
  | |- context [(?a =? ?b)%nat] => destruct (Nat.eqb_spec a b)
  end.

(** A decimal digit is one of ten values. *)
Ltac digit_cases k :=
  let H := fresh in
  assert (H : k = 0 \/ k = 1 \/ k = 2 \/ k = 3 \/ k = 4 \/ k = 5 \/ k = 6 \/
              k = 7 \/ k = 8 \/ k = 9) by lia;
  repeat (destruct H as [H|H]; [subst k|]); [..|subst k].


Lemma pow10_lt_iff (a b : Z) : 0 <= a -> 0 <= b -> 10 ^ a < 10 ^ b <-> a < b.
Proof. intros. symmetry. apply Z.pow_lt_mono_r_iff; lia. Qed.

Lemma div_lt_mul (v k m : Z) : 0 < k -> v / k < m -> v < k * m.
Proof. intros Hk H. pose proof (Z.mod_pos_bound v k Hk). Z.div_mod_to_equations. nia. Qed.

Lemma mul_div_le' (v k m : Z) : 0 < k -> m <= v / k -> k * m <= v.
Proof. intros Hk H. pose proof (Z.mul_div_le v k Hk). nia. Qed.

Lemma div_pow_add (u : Z) (i j : nat) :
  u / 10 ^ Z.of_nat i / 10 ^ Z.of_nat j = u / 10 ^ Z.of_nat (i + j).
Proof.
  rewrite Z.div_div, Nat2Z.inj_add, Z.pow_add_r by (lia || apply Z.pow_pos_nonneg; lia).
  reflexivity.
Qed.

(** Each iteration at least halves the value, so the fuel decreases. *)
Lemma loop_fuel_div (v d : Z) :
  2 <= d <= v -> (loop_fuel (v / d) < loop_fuel v)%nat.
Proof.
  intros H. unfold loop_fuel.
  assert (Hq : 0 < v / d) by (apply Z.div_str_pos; lia).
  assert (Hm : d * (v / d) <= v) by (apply Z.mul_div_le; lia).
  assert (Z.log2 (2 * (v / d)) <= Z.log2 v) by (apply Z.log2_le_mono; nia).
  rewrite Z.log2_double in * by lia. pose proof (Z.log2_nonneg (v / d)). lia.
Qed.

(** ** The magnitude and the digit count *)

Lemma std_uval_int (val : Z) :
  is_int val = true -> std_uval val = Z.abs val.
Proof.
  unfold is_int, int_min, int_max, std_uval, std_neg, uadd, to_unsigned.
  rewrite andb_true_iff, !Z.leb_le, Z.lnot_eq_pred_opp. intros [H1 H2].
  destruct (Z.ltb_spec val 0).
  - rewrite (Z.mod_small (- val - 1)), Z.mod_small; lia.
  - rewrite Z.mod_small; lia.
Qed.

Lemma to_chars_len_loop_spec (fuel : nat) (v n : Z) :
  0 <= v -> (loop_fuel v <= fuel)%nat ->
  exists len, to_chars_len_loop fuel v n = Some (n - 1 + len) /\ len_spec v len.
Proof.
  revert v n. induction fuel as [|fuel IH]; intros v n Hv Hf;
    [unfold loop_fuel in Hf; lia|].
  unfold len_spec. simpl.
  destruct (Z.ltb_spec v 10); [exists 1; cbn; split; [f_equal|]; lia|].
  destruct (Z.ltb_spec v 100); [exists 2; cbn; split; [f_equal|]; lia|].
  destruct (Z.ltb_spec v 1000); [exists 3; cbn; split; [f_equal|]; lia|].
  destruct (Z.ltb_spec v 10000); [exists 4; cbn; split; [f_equal|]; lia|].
  pose proof (loop_fuel_div v 10000 ltac:(lia)).
  destruct (IH (v / 10000) (n + 4)) as (len & -> & L1 & L2 & L3);
    [apply Z.div_pos; lia | lia |].
  exists (len + 4). split; [f_equal; lia|].
  rewrite Z.pow_add_r by lia. replace (len + 4 - 1) with (len - 1 + 4) by lia.
  rewrite Z.pow_add_r by lia. cbn [Z.pow Z.pow_pos Pos.iter Z.mul].
  split; [lia|]. split; [apply div_lt_mul in L2; lia|]. right.
  destruct L3 as [->|L3]; [cbn; lia|]. apply mul_div_le' in L3; lia.
Qed.

(** ** Buffer writes *)

Lemma replace_nth_map_seq {A} (f : nat -> A) (n s i : nat) (c : A) :
  replace_nth (map f (seq s n)) i c =
  map (fun j => if (j =? s + i)%nat then c else f j) (seq s n).
Proof.
  revert s i. induction n as [|n IH]; intros s [|i]; simpl; [reflexivity..| |].
  - rewrite Nat.add_0_r, Nat.eqb_refl. f_equal. apply map_ext_in.
    intros j Hj%in_seq. destruct (Nat.eqb_spec j s); [lia|reflexivity].
  - rewrite IH. replace (S s + i)%nat with (s + S i)%nat by lia.
    destruct (Nat.eqb_spec s (s + S i)); [lia|reflexivity].
Qed.

(** Writing [c] at an index inside a buffer described pointwise. *)
Lemma store_map_seq (f : nat -> ascii) (n i : nat) (c : ascii) :
  (i < n)%nat ->
  store (map f (seq 0 n)) (Z.of_nat i) c =
  Some (map (fun j => if (j =? i)%nat then c else f j) (seq 0 n)).
Proof.
  intros H. unfold store. rewrite length_map, length_seq, Nat2Z.id.
  replace ((0 <=? Z.of_nat i) && (Z.of_nat i <? Z.of_nat n)) with true
    by (symmetry; apply andb_true_iff; split; [apply Z.leb_le | apply Z.ltb_lt]; lia).
  rewrite replace_nth_map_seq. reflexivity.
Qed.

(** The table holds the tens digit of [m] at [2 m] and its units digit at
    [2 m + 1]. *)
Lemma digits_table_pair (m : Z) :
  0 <= m < 100 ->
  digit_char (m * 2 + 1) = Some (char_add "0" (m mod 10)) /\
  digit_char (m * 2) = Some (char_add "0" (m / 10)).
Proof.
  intros H. replace m with (Z.of_nat (Z.to_nat m)) in * by lia.
  assert (Hn : (Z.to_nat m < 100)%nat) by lia.
  generalize (Z.to_nat m) Hn. clear. intros n Hn.
  do 100 (destruct n as [|n]; [split; reflexivity|]). lia.
Qed.

Lemma mod100_mod10 (v : Z) : (v mod 100) mod 10 = v mod 10.
Proof. Z.div_mod_to_equations. lia. Qed.

Lemma mod100_div10 (v : Z) : (v mod 100) / 10 = (v / 10) mod 10.
Proof. Z.div_mod_to_equations. lia. Qed.

Lemma digit_at_succ (u : Z) (i : nat) :
  digit_at u (S i) = (u / 10 ^ Z.of_nat i / 10) mod 10.
Proof.
  unfold digit_at. rewrite <- Nat.add_1_r, <- (div_pow_add u i 1). reflexivity.
Qed.

(** A 32-bit unsigned value has at most ten digits. *)
Lemma len_spec_le_10 (u len : Z) :
  len_spec u len -> u < 2 ^ 32 -> len <= 10.
Proof.
  intros (H1 & H2 & [->|H3]) Hu; [lia|].
  destruct (Z.leb_spec len 10) as [|Hl]; [assumption|].
  assert (10 ^ 10 <= 10 ^ (len - 1)) by (apply Z.pow_le_mono_r; lia).
  cbn in *. lia.
Qed.

Lemma usub_small (a b : Z) : 0 <= b -> b <= a -> a < 2 ^ 32 -> usub a b = a - b.
Proof. intros. unfold usub, to_unsigned. apply Z.mod_small. lia. Qed.

Lemma uadd_small (a b : Z) : 0 <= a -> 0 <= b -> a + b < 2 ^ 32 -> uadd a b = a + b.
Proof. intros. unfold uadd, to_unsigned. apply Z.mod_small. lia. Qed.

(** ** The writer's loop invariant *)

Section Writer.

Context (neg len : nat) (u : Z).
Hypothesis Hu : 0 <= u.
Hypothesis Hu32 : u < 2 ^ 32.
Hypothesis Hlen : len_spec u (Z.of_nat len).

Lemma len_lower (k : nat) : 10 ^ Z.of_nat k <= u -> (k < len)%nat.
Proof.
  intros H. destruct Hlen as (_ & Hl & _).
  assert (Hp : 10 ^ Z.of_nat k < 10 ^ Z.of_nat len) by lia.
  rewrite pow10_lt_iff in Hp by lia. lia.
Qed.

Lemma len_upper (k : nat) : (1 <= k)%nat -> u < 10 ^ Z.of_nat k -> (len <= k)%nat.
Proof.
  intros Hk H. destruct Hlen as (H1 & _ & [Hl|Hl]); [lia|].
  assert (Hp : 10 ^ (Z.of_nat len - 1) < 10 ^ Z.of_nat k) by lia.
  rewrite pow10_lt_iff in Hp by lia. lia.
Qed.


(** One iteration writes the two digits of weight [10^(2k)] and
    [10^(2k+1)] at the positions [__pos] and [__pos - 1]. *)
Lemma written_step (k j : nat) :
  (2 * k + 3 <= len)%nat -> (j < neg + len)%nat ->
  (if (j =? neg + len - 1 - 2 * k - 1)%nat
   then char_add "0" (digit_at u (S (2 * k)))
   else if (j =? neg + len - 1 - 2 * k)%nat
   then char_add "0" (digit_at u (2 * k))
   else written u neg len k j) = written u neg len (S k) j.
Proof.
  intros Hk Hj. unfold written. case_nat; try lia; try reflexivity.
  all: do 2 f_equal; lia.
Qed.

Lemma to_chars_10_loop_spec (fuel k : nat) (pos val : Z) :
  (2 * k + 1 <= len)%nat ->
  val = u / 10 ^ Z.of_nat (2 * k) -> pos = Z.of_nat len - 1 - Z.of_nat (2 * k) ->
  (loop_fuel val <= fuel)%nat ->
  exists k', (2 * k' + 1 <= len)%nat /\ u / 10 ^ Z.of_nat (2 * k') < 100 /\
    to_chars_10_loop fuel (map (written u neg len k) (seq 0 (neg + len)))
      (Z.of_nat neg) pos val =
    Some (map (written u neg len k') (seq 0 (neg + len)),
          Z.of_nat len - 1 - Z.of_nat (2 * k'), u / 10 ^ Z.of_nat (2 * k')).
Proof.
  revert k pos val. induction fuel as [|fuel IH]; intros k pos val Hk -> -> Hf;
    [unfold loop_fuel in Hf; lia|].
  cbn [to_chars_10_loop]. set (w := u / 10 ^ Z.of_nat (2 * k)) in *.
  destruct (Z.leb_spec 100 w) as [Hw|Hw]; [|exists k; auto].
  assert (Hk3 : (2 * k + 3 <= len)%nat).
  { enough (2 * k + 2 < len)%nat by lia. apply len_lower.
    rewrite Nat2Z.inj_add, Z.pow_add_r by lia.
    apply mul_div_le'; [apply Z.pow_pos_nonneg; lia | exact Hw]. }
  pose proof (len_spec_le_10 _ _ Hlen Hu32) as H10.
  destruct (digits_table_pair (w mod 100)) as [-> ->]; [apply Z.mod_pos_bound; lia|].
  replace (Z.of_nat neg + (Z.of_nat len - 1 - Z.of_nat (2 * k)))
    with (Z.of_nat (neg + len - 1 - 2 * k)) by lia.
  rewrite store_map_seq, usub_small by lia.
  replace (Z.of_nat neg + (Z.of_nat len - 1 - Z.of_nat (2 * k) - 1))
    with (Z.of_nat (neg + len - 1 - 2 * k - 1)) by lia.
  rewrite store_map_seq, usub_small by lia.
  rewrite mod100_mod10, mod100_div10.
  change (w mod 10) with (digit_at u (2 * k)).
  replace ((w / 10) mod 10) with (digit_at u (S (2 * k)))
    by (rewrite digit_at_succ; reflexivity).
  erewrite map_ext_in by (intros j Hj%in_seq; apply written_step; lia).
  apply IH; [lia| |lia|].
  - unfold w. change 100 with (10 ^ Z.of_nat 2). rewrite div_pow_add.
    do 3 f_equal. lia.
  - pose proof (loop_fuel_div w 100). lia.
Qed.

(** The whole writer on the buffer of the constructor: every digit is
    written, at its place. *)
Lemma to_chars_10_impl_written :
  to_chars_10_impl (repeat "-"%char (neg + len)) (Z.of_nat neg) (Z.of_nat len) u =
  Some (map (written u neg len len) (seq 0 (neg + len))).
Proof.
  pose proof (len_spec_le_10 _ _ Hlen Hu32) as H10.
  assert (H1 : (1 <= len)%nat) by (destruct Hlen; lia).
  unfold to_chars_10_impl.
  replace (repeat "-"%char (neg + len))
    with (map (written u neg len 0) (seq 0 (neg + len))).
  2:{ erewrite (map_ext_in _ (fun _ => "-"%char));
        [rewrite map_const, length_seq; reflexivity|].
      intros j Hj%in_seq. unfold written. case_nat; [reflexivity|lia]. }
  destruct (to_chars_10_loop_spec (loop_fuel u) 0 (usub (Z.of_nat len) 1) u)
    as (k & Hk & Hw & ->); [lia | | rewrite usub_small by lia; lia | lia |].
  { change (Z.of_nat (2 * 0)) with 0. rewrite Z.pow_0_r, Z.div_1_r. reflexivity. }
  cbn beta iota. set (w := u / 10 ^ Z.of_nat (2 * k)) in *.
  assert (Hw0 : 0 <= w) by (apply Z.div_pos; [lia | apply Z.pow_pos_nonneg; lia]).
  assert (D0 : digit_at u (2 * k) = w mod 10) by reflexivity.
  destruct (Z.leb_spec 10 w) as [Hw10|Hw10].
  - assert (D1 : digit_at u (S (2 * k)) = w / 10).
    { rewrite digit_at_succ. apply Z.mod_small. Z.div_mod_to_equations. lia. }
    assert (Hl : len = (2 * k + 2)%nat).
    { enough (2 * k + 1 < len /\ len <= 2 * k + 2)%nat by lia. split.
      - apply len_lower. rewrite Nat2Z.inj_add, Z.pow_add_r by lia.
        apply mul_div_le'; [apply Z.pow_pos_nonneg; lia | exact Hw10].
      - apply len_upper; [lia|]. rewrite Nat2Z.inj_add, Z.pow_add_r by lia.
        apply div_lt_mul; [apply Z.pow_pos_nonneg; lia | exact Hw]. }
    destruct (digits_table_pair w) as [-> ->]; [lia|].
    replace (Z.of_nat neg + 1) with (Z.of_nat (neg + 1)) by lia.
    rewrite store_map_seq by lia. cbn beta iota.
    rewrite store_map_seq by lia. f_equal. apply map_ext_in.
    intros j Hj%in_seq. unfold written. case_nat; try lia.
    all: try reflexivity.
    all: f_equal; first [rewrite <- D1 | rewrite <- D0]; f_equal; lia.
  - assert (Hl : len = (2 * k + 1)%nat).
    { enough (len <= 2 * k + 1)%nat by lia. apply len_upper; [lia|].
      rewrite Nat2Z.inj_add, Z.pow_add_r by lia.
      apply div_lt_mul; [apply Z.pow_pos_nonneg; lia | exact Hw10]. }
    rewrite store_map_seq by lia. f_equal. apply map_ext_in.
    intros j Hj%in_seq. unfold written. case_nat; try lia; try reflexivity.
    f_equal. replace (neg + len - 1 - j)%nat with (2 * k)%nat by lia.
    rewrite D0, Z.mod_small; lia.
Qed.

End Writer.

(** ** The written digits are the decimal numeral *)

Lemma map_seq_shift {A} (f : nat -> A) (s n : nat) :
  map f (seq s n) = map (fun t => f (s + t)%nat) (seq 0 n).
Proof.
  revert f s. induction n as [|n IH]; intros f s; [reflexivity|].
  cbn [seq map]. rewrite Nat.add_0_r, IH, (IH _ 1%nat). f_equal.
  apply map_ext. intros t. f_equal. lia.
Qed.

Lemma written_final (u : Z) (neg len : nat) :
  map (written u neg len len) (seq 0 (neg + len)) =
  repeat "-"%char neg ++ map (char_add "0") (ds_of u len).
Proof.
  rewrite seq_app, map_app. f_equal.
  - erewrite (map_ext_in _ (fun _ => "-"%char));
      [rewrite map_const, length_seq; reflexivity|].
    intros j Hj%in_seq. unfold written. case_nat; [reflexivity|lia].
  - rewrite map_seq_shift. unfold ds_of. rewrite map_map. apply map_ext_in.
    intros t Ht%in_seq. unfold written. case_nat; [lia|]. do 2 f_equal. lia.
Qed.

Lemma ds_of_S (u : Z) (n : nat) : ds_of u (S n) = digit_at u n :: ds_of u n.
Proof.
  unfold ds_of. cbn [seq map]. rewrite <- seq_shift, map_map. f_equal.
  - f_equal. lia.
  - apply map_ext. intros t. f_equal. lia.
Qed.

Lemma digit_at_bound (u : Z) (i : nat) : 0 <= digit_at u i <= 9.
Proof. unfold digit_at. pose proof (Z.mod_pos_bound (u / 10 ^ Z.of_nat i) 10). lia. Qed.

Lemma ds_of_digits (u : Z) (n : nat) : Forall (fun d => 0 <= d <= 9) (ds_of u n).
Proof. apply Forall_forall. intros d (t & <- & _)%in_map_iff. apply digit_at_bound. Qed.

#[export] Hint Resolve digit_at_bound ds_of_digits : std_to_string.

(** Horner's rule on the digits gives back the low digits of [u]. *)
Lemma horner_ds_of (u a : Z) (n : nat) :
  horner (ds_of u n) a = a * 10 ^ Z.of_nat n + u mod 10 ^ Z.of_nat n.
Proof.
  revert a. induction n as [|n IH]; intros a.
  - cbn. rewrite Z.mod_1_r. lia.
  - rewrite ds_of_S. cbn [horner fold_left]. fold (horner (ds_of u n) (10 * a + digit_at u n)).
    rewrite IH, Nat2Z.inj_succ, Z.pow_succ_r, (Z.mul_comm 10 (10 ^ _)) by lia.
    rewrite Z.rem_mul_r by (lia || apply Z.pow_nonzero; lia).
    unfold digit_at. ring.
Qed.

Lemma string_of_uint_digits (ds : list Z) :
  Forall (fun d => 0 <= d <= 9) ds ->
  NilEmpty.string_of_uint (uint_of_digits ds) =
  string_of_list_ascii (map (char_add "0") ds).
Proof.
  induction 1 as [|k ds Hk _ IH]; [reflexivity|]. cbn [uint_of_digits fold_right map].
  fold (uint_of_digits ds). digit_cases k; cbn [uint_digit NilEmpty.string_of_uint]; rewrite IH; reflexivity.
Qed.

Lemma of_uint_acc_digits (ds : list Z) (acc : positive) :
  Forall (fun d => 0 <= d <= 9) ds ->
  Z.pos (Pos.of_uint_acc (uint_of_digits ds) acc) = horner ds (Z.pos acc).
Proof.
  intros H. revert acc. induction H as [|k ds Hk _ IH]; intros acc; [reflexivity|].
  cbn [uint_of_digits fold_right horner fold_left]. fold (uint_of_digits ds).
  fold (horner ds (10 * Z.pos acc + k)).
  digit_cases k; cbn [uint_digit Pos.of_uint_acc]; rewrite IH; f_equal; lia.
Qed.

Lemma of_uint_digits (ds : list Z) :
  Forall (fun d => 0 <= d <= 9) ds ->
  Z.of_N (N.of_uint (uint_of_digits ds)) = horner ds 0.
Proof.
  induction 1 as [|k ds Hk Hds IH]; [reflexivity|].
  cbn [uint_of_digits fold_right horner fold_left]. fold (uint_of_digits ds).
  digit_cases k; cbn [uint_digit N.of_uint Pos.of_uint Z.of_N];
    [exact IH|..]; rewrite of_uint_acc_digits by exact Hds; reflexivity.
Qed.

(** A numeral whose first digit is not [0] (or that is ["0"]) is normal. *)
Lemma unorm_digits (k : Z) (ds : list Z) :
  0 <= k <= 9 -> k <> 0 \/ ds = [] ->
  Decimal.unorm (uint_of_digits (k :: ds)) = uint_of_digits (k :: ds).
Proof.
  intros Hk Hnz. cbn [uint_of_digits fold_right]. fold (uint_of_digits ds).
  digit_cases k; [destruct Hnz as [H| ->]; [congruence|]|..]; reflexivity.
Qed.

(** The leading digit of a number of [S m] digits is not [0], unless the
    number is [0] itself. *)
Lemma top_digit_nonzero (u : Z) (m : nat) :
  0 <= u -> len_spec u (Z.of_nat (S m)) -> m <> 0%nat \/ u <> 0 ->
  digit_at u m <> 0.
Proof.
  intros Hu (_ & H1 & H2) Hnz.
  rewrite Nat2Z.inj_succ, Z.pow_succ_r in H1 by lia.
  assert (Hp : 0 < 10 ^ Z.of_nat m) by (apply Z.pow_pos_nonneg; lia).
  assert (Hle : 10 ^ Z.of_nat m <= u).
  { destruct m as [|m]; [cbn; lia|].
    destruct H2 as [H2|H2]; [lia|].
    replace (Z.of_nat (S (S m)) - 1) with (Z.of_nat (S m)) in H2 by lia. exact H2. }
  unfold digit_at. rewrite Z.mod_small.
  - enough (0 < u / 10 ^ Z.of_nat m) by lia. apply Z.div_str_pos. lia.
  - split; [apply Z.div_pos; lia|]. apply Z.div_lt_upper_bound; lia.
Qed.

(** The Standard Library's numeral of [u] is the list of its [len] digits. *)
Lemma to_uint_ds_of (u : Z) (len : nat) :
  0 <= u -> len_spec u (Z.of_nat len) ->
  N.to_uint (Z.to_N u) = uint_of_digits (ds_of u len).
Proof.
  intros Hu Hl.
  assert (Hv : Z.to_N u = N.of_uint (uint_of_digits (ds_of u len))).
  { apply N2Z.inj. rewrite of_uint_digits by apply ds_of_digits.
    rewrite horner_ds_of, Z2N.id by lia. destruct Hl as (_ & H & _).
    rewrite Z.mod_small; lia. }
  rewrite Hv, DecimalN.Unsigned.to_of.
  destruct len as [|n]; [destruct Hl; lia|]. rewrite ds_of_S.
  apply unorm_digits; [apply digit_at_bound|].
  destruct n as [|n]; [right; reflexivity|]. left.
  apply top_digit_nonzero; auto.
Qed.

(** [TagString.to_string] character by character: the sign, then the
    digits of the magnitude. *)
Lemma to_string_chars (val : Z) (len : nat) :
  len_spec (Z.abs val) (Z.of_nat len) ->
  chars (to_string val) =
  repeat "-"%char (if val <? 0 then 1%nat else 0%nat)
    ++ map (char_add "0") (ds_of (Z.abs val) len).
Proof.
  intros Hl. unfold to_string.
  assert (Hz : Z.to_int val =
    if val <? 0 then Decimal.Neg (N.to_uint (Z.to_N (Z.abs val)))
    else Decimal.Pos (N.to_uint (Z.to_N (Z.abs val)))) by (destruct val; reflexivity).
  rewrite Hz, (to_uint_ds_of _ len) by (lia || exact Hl).
  destruct (val <? 0); cbn [NilEmpty.string_of_int list_ascii_of_string repeat app];
    rewrite string_of_uint_digits, list_ascii_of_string_of_list_ascii
      by auto with std_to_string; reflexivity.
Qed.

Lemma length_ds_of (u : Z) (n : nat) : length (ds_of u n) = n.
Proof. unfold ds_of. rewrite length_map. apply length_seq. Qed.

Lemma is_int_abs (val : Z) : is_int val = true -> Z.abs val <= 2 ^ 31.
Proof.
  unfold is_int, int_min, int_max. rewrite andb_true_iff, !Z.leb_le. lia.
Qed.

(** The digit count of a value, from the loop of [to_chars_len]. *)
Lemma len_spec_exists (v : Z) : 0 <= v -> exists len, len_spec v len.
Proof.
  intros Hv. destruct (to_chars_len_loop_spec (loop_fuel v) v 1 Hv (le_n _))
    as (len & _ & Hl). eauto.
Qed.

(** The character of a digit. *)
Lemma char_digit_facts (d : Z) :
  0 <= d <= 9 ->
  is_digit (char_add "0" d) = true /\ Ascii.eqb (char_add "0" d) "-" = false /\
  (Ascii.eqb (char_add "0" d) "0" = true <-> d = 0).
Proof.
  intros Hd. digit_cases d; (split; [reflexivity|split; [reflexivity|]]);
    split; intros H; (reflexivity || discriminate || lia).
Qed.

Lemma forallb_is_digit (ds : list Z) :
  Forall (fun d => 0 <= d <= 9) ds -> forallb is_digit (map (char_add "0") ds) = true.
Proof.
  induction 1 as [|d ds Hd _ IH]; [reflexivity|]. cbn [map forallb].
  rewrite (proj1 (char_digit_facts d Hd)), IH. reflexivity.
Qed.

(** ** The properties of [std::to_string] *)

(** [__to_chars_len] terminates within its fuel on every unsigned value
    and returns its number of decimal digits. *)
Lemma to_chars_len_total (v : Z) :
  0 <= v -> exists len, to_chars_len v = Some len /\ len_spec v len.
Proof.
  intros Hv. destruct (to_chars_len_loop_spec (loop_fuel v) v 1 Hv (le_n _))
    as (len & E & Hl).
  exists len. unfold to_chars_len. rewrite E. split; [f_equal; lia | exact Hl].
Qed.

(** [__to_chars_10_impl], run on the constructor's buffer of [neg + len]
    dashes with [len] the digit count of a 32-bit value [u], terminates,
    never writes out of the buffer or reads out of the table, keeps the
    first [neg] characters and writes the digits of [u], most significant
    first, after them. *)
Lemma to_chars_10_impl_spec (neg len : nat) (u : Z) :
  0 <= u < 2 ^ 32 -> len_spec u (Z.of_nat len) ->
  to_chars_10_impl (repeat "-"%char (neg + len)) (Z.of_nat neg) (Z.of_nat len) u =
  Some (repeat "-"%char neg ++ map (char_add "0") (ds_of u len)).
Proof.
  intros Hu Hl. rewrite to_chars_10_impl_written by (lia || exact Hl).
  rewrite written_final. reflexivity.
Qed.

(** The digit count of [|val|] and the characters of [to_string val]. *)
Lemma to_string_len (val : Z) (len : Z) :
  len_spec (Z.abs val) len ->
  Z.of_nat (String.length (to_string val)) = Z.b2z (std_neg val) + len.
Proof.
  intros Hl. assert (H1 : 1 <= len) by apply Hl.
  replace len with (Z.of_nat (Z.to_nat len)) in * by lia.
  rewrite chars_length, (to_string_chars val _ Hl), length_app, repeat_length,
    length_map, length_ds_of.
  unfold std_neg. destruct (val <? 0); cbn [Z.b2z]; lia.
Qed.

(** [__to_chars_len] terminates on the magnitude of every 32-bit
    [int] and returns the number of digit characters of its decimal text:
    the length of [to_string val] without its sign. *)
Theorem to_chars_len_digits (val : Z) :
  is_int val = true ->
  to_chars_len (std_uval val) =
  Some (Z.of_nat (String.length (to_string val)) - Z.b2z (std_neg val)).
Proof.
  intros Hi. rewrite std_uval_int by exact Hi.
  destruct (to_chars_len_total (Z.abs val)) as (len & -> & Hl); [lia|].
  rewrite (to_string_len val len Hl). f_equal. lia.
Qed.

(** on every 32-bit [int], INT_MIN included, libstdc++'s
    [std::to_string] returns the decimal printing [TagString.to_string]
    that the tag matching is proved against: the sign, then the digits of
    the magnitude computed in unsigned arithmetic ([-val] would overflow
    [int] at INT_MIN; [(unsigned)~val + 1u] does not). *)
Theorem std_to_string_equiv (val : Z) :
  is_int val = true -> std_to_string val = Some (to_string val).
Proof.
  intros Hi. unfold std_to_string. rewrite std_uval_int by exact Hi.
  pose proof (is_int_abs val Hi) as Hb.
  destruct (to_chars_len_total (Z.abs val)) as (len & -> & Hl); [lia|].
  pose proof (len_spec_le_10 _ _ Hl ltac:(lia)).
  replace len with (Z.of_nat (Z.to_nat len)) in * by (destruct Hl; lia).
  set (n := Z.to_nat len) in *.
  set (negn := if val <? 0 then 1%nat else 0%nat).
  replace (Z.b2z (std_neg val)) with (Z.of_nat negn)
    by (unfold negn, std_neg; destruct (val <? 0); reflexivity).
  assert (negn <= 1)%nat by (unfold negn; destruct (val <? 0); lia).
  rewrite uadd_small by lia.
  replace (Z.to_nat (Z.of_nat negn + Z.of_nat n)) with (negn + n)%nat by lia.
  rewrite to_chars_10_impl_spec by (lia || exact Hl).
  f_equal. apply chars_inj. rewrite list_ascii_of_string_of_list_ascii.
  symmetry. apply to_string_chars. exact Hl.
Qed.

(** the text of a 32-bit id is at most 11 characters (["-2147483648"])
    and the tag text [" " + std::to_string(id)] at most 12. *)
Theorem tag_of_length_int (val : Z) :
  is_int val = true ->
  (String.length (to_string val) <= 11 /\ String.length (tag_of val) <= 12)%nat.
Proof.
  intros Hi. pose proof (is_int_abs val Hi) as Hb.
  destruct (len_spec_exists (Z.abs val)) as (len & Hl); [lia|].
  pose proof (len_spec_le_10 _ _ Hl ltac:(lia)).
  pose proof (to_string_len val len Hl).
  unfold tag_of. cbn [String.append String.length].
  unfold std_neg in *. destruct (val <? 0); cbn [Z.b2z] in *; lia.
Qed.

(** the text of every integer id is a canonical decimal numeral:
    it starts with ['-'] exactly for a negative id, then comes at least one
    digit, with no leading ['0'] unless the text is ["0"], and never
    ["-0"]; this is the shape the suffix test relies on (no space, and one
    text per id). *)
Theorem to_string_canonical (val : Z) :
  decimal_text (chars (to_string val)) = true /\
  (hd_error (chars (to_string val)) = Some "-"%char <-> val < 0).
Proof.
  destruct (len_spec_exists (Z.abs val)) as (len & Hl); [lia|].
  assert (H1 : 1 <= len) by apply Hl.
  replace len with (Z.of_nat (S (Z.to_nat len - 1))) in Hl by lia.
  set (m := (Z.to_nat len - 1)%nat) in Hl.
  rewrite (to_string_chars val _ Hl), ds_of_S.
  pose proof (digit_at_bound (Z.abs val) m) as Hb.
  destruct (char_digit_facts _ Hb) as (Hdig & Hdash & Hzero).
  pose proof (forallb_is_digit _ (ds_of_digits (Z.abs val) m)) as Hall.
  destruct (Z.ltb_spec val 0) as [Hneg|Hpos]; cbn [repeat app map decimal_text
    canonical_digits hd hd_error]; rewrite ?Hdig, ?Hdash, ?Hall; cbn.
  - assert (Hnz : digit_at (Z.abs val) m <> 0)
      by (apply top_digit_nonzero; [lia | exact Hl | right; lia]).
    assert (E : Ascii.eqb (char_add "0" (digit_at (Z.abs val) m)) "0" = false)
      by (apply not_true_iff_false; rewrite Hzero; exact Hnz).
    rewrite E. split; [reflexivity|]. split; [lia | reflexivity].
  - split.
    + destruct (Nat.eq_dec m 0) as [->|Hm]; [rewrite orb_true_r; reflexivity|].
      assert (E : Ascii.eqb (char_add "0" (digit_at (Z.abs val) m)) "0" = false).
      { apply not_true_iff_false. rewrite Hzero.
        apply top_digit_nonzero; [lia | exact Hl | left; exact Hm]. }
      rewrite E. reflexivity.
    + split; [intros E; injection E as E; rewrite E in Hdash; discriminate | lia].
Qed.


