(* ===== verification/Geometry.v ===== *)
(** * Geometry of a tag: ViSP's data and [compute3DPoints]

    The ViSP types the detector uses, over exact rationals: [vpImagePoint]
    (a pixel, row [i] and column [j]), [vpCameraParameters] (the pinhole
    intrinsics), [vpPoint] (a 3D point in the object frame with its
    normalised image coordinates) and [vpHomogeneousMatrix] (a rigid
    transform), with the two ViSP conversions between pixels and normalised
    coordinates and the projection of a point through a pose.  These are
    models of the library the code calls, written from its documented
    formulas.  The code of the repository modelled here is
    [DetectorAprilTag::compute3DPoints] (detector_apriltag.cpp, lines
    128-140).  Equivalence of coordinates is [Qeq]; the functions are
    [Proper] for it. *)

From Stdlib Require Import QArith Qfield List Setoid Morphisms RelationPairs.
From S2P Require Import Prelude.
Import ListNotations.

Local Open Scope Q_scope.

(** ** ViSP data *)

(** [vpImagePoint]: [i] is the row (the [v] coordinate), [j] the column
    (the [u] coordinate). *)
Record vpImagePoint := mkImagePoint { ip_i : Q; ip_j : Q }.

Definition get_u (p : vpImagePoint) : Q := ip_j p.
Definition get_v (p : vpImagePoint) : Q := ip_i p.

(** [vpCameraParameters]: focal lengths in pixels, principal point, and the
    two distortion coefficients (unused by the conversion without
    distortion). *)
Record vpCameraParameters := mkCameraParameters {
  cam_px : Q; cam_py : Q; cam_u0 : Q; cam_v0 : Q; cam_kud : Q; cam_kdu : Q }.

(** [vpPoint]: object-frame coordinates [oX oY oZ] and normalised image
    coordinates [x y]. *)
Record vpPoint := mkPoint { oX : Q; oY : Q; oZ : Q; pt_x : Q; pt_y : Q }.

(** [vpPoint pt{}]: every coordinate zero. *)
Definition vpPoint_default : vpPoint := mkPoint 0 0 0 0 0.

Definition set_oX (v : Q) (p : vpPoint) : vpPoint := mkPoint v (oY p) (oZ p) (pt_x p) (pt_y p).
Definition set_oY (v : Q) (p : vpPoint) : vpPoint := mkPoint (oX p) v (oZ p) (pt_x p) (pt_y p).
Definition set_oZ (v : Q) (p : vpPoint) : vpPoint := mkPoint (oX p) (oY p) v (pt_x p) (pt_y p).
Definition set_x (v : Q) (p : vpPoint) : vpPoint := mkPoint (oX p) (oY p) (oZ p) v (pt_y p).
Definition set_y (v : Q) (p : vpPoint) : vpPoint := mkPoint (oX p) (oY p) (oZ p) (pt_x p) v.

(** [vpHomogeneousMatrix]: rotation [r] (row-major) and translation [t];
    its default constructor is the identity. *)
Record vpHomogeneousMatrix := mkHomogeneousMatrix {
  r11 : Q; r12 : Q; r13 : Q; r21 : Q; r22 : Q; r23 : Q; r31 : Q; r32 : Q; r33 : Q;
  t1 : Q; t2 : Q; t3 : Q }.

Definition vpHomogeneousMatrix_identity : vpHomogeneousMatrix :=
  mkHomogeneousMatrix 1 0 0 0 1 0 0 0 1 0 0 0.

(** [vpPixelMeterConversion::convertPointWithoutDistortion]:
    [x = (u - u0) / px], [y = (v - v0) / py]. *)
Definition convertPointWithoutDistortion (cam : vpCameraParameters)
    (ip : vpImagePoint) : Q * Q :=
  ((get_u ip - cam_u0 cam) / cam_px cam, (get_v ip - cam_v0 cam) / cam_py cam).

(** [vpMeterPixelConversion::convertPoint] without distortion:
    [u = u0 + x px], [v = v0 + y py]. *)
Definition convertPoint (cam : vpCameraParameters) (x y : Q) : vpImagePoint :=
  mkImagePoint (cam_v0 cam + y * cam_py cam) (cam_u0 cam + x * cam_px cam).

(** [vpPoint::project(cMo)]: the camera-frame point [cP = cMo oP] and its
    perspective projection [x = X / Z], [y = Y / Z]. *)
Definition project (M : vpHomogeneousMatrix) (p : vpPoint) : vpPoint :=
  let X := r11 M * oX p + r12 M * oY p + r13 M * oZ p + t1 M in
  let Y := r21 M * oX p + r22 M * oY p + r23 M * oZ p + t2 M in
  let Z := r31 M * oX p + r32 M * oY p + r33 M * oZ p + t3 M in
  set_y (Y / Z) (set_x (X / Z) p).

(** ** [compute3DPoints] *)

(** One [vpPoint pt] is reused: [set_oZ(0)] once, then for each corner
    [set_oX], [set_oY] and a copy pushed into the vector.  In C++
    [- _tag_size_meters / 2.] is [(- s) / 2]. *)
Definition compute3DPoints (tag_size_meters : Q) : list vpPoint :=
  let s := tag_size_meters in
  let pt0 := set_oZ 0 vpPoint_default in
  let pt1 := set_oY ((- s) / 2) (set_oX ((- s) / 2) pt0) in
  let pt2 := set_oY ((- s) / 2) (set_oX (s / 2) pt1) in
  let pt3 := set_oY (s / 2) (set_oX (s / 2) pt2) in
  let pt4 := set_oY (s / 2) (set_oX ((- s) / 2) pt3) in
  [pt1; pt2; pt3; pt4].

(** ** Equivalence of points *)

Definition pt_equiv (p q : vpPoint) : Prop :=
  oX p == oX q /\ oY p == oY q /\ oZ p == oZ q /\ pt_x p == pt_x q /\ pt_y p == pt_y q.

#[export] Instance pt_equiv_Equivalence : Equivalence pt_equiv.
Proof.
  unfold pt_equiv. split.
  - intros p. repeat split; reflexivity.
  - intros p q H. intuition (symmetry; assumption).
  - intros p q r H1 H2. intuition (etransitivity; eassumption).
Qed.

#[export] Instance compute3DPoints_Proper :
  Proper (Qeq ==> Forall2 pt_equiv) compute3DPoints.
Proof.
  intros s s' Hs. unfold compute3DPoints, pt_equiv.
  repeat constructor; simpl; try reflexivity; rewrite Hs; reflexivity.
Qed.

(** Pixels with the same rational coordinates. *)
Definition ip_equiv (p q : vpImagePoint) : Prop := ip_i p == ip_i q /\ ip_j p == ip_j q.

#[export] Instance ip_equiv_Equivalence : Equivalence ip_equiv.
Proof.
  unfold ip_equiv. split.
  - intros p. split; reflexivity.
  - intros p q H. intuition (symmetry; assumption).
  - intros p q r H1 H2. intuition (etransitivity; eassumption).
Qed.

#[export] Instance set_x_Proper : Proper (Qeq ==> pt_equiv ==> pt_equiv) set_x.
Proof. intros v v' Hv p p' Hp. unfold pt_equiv in *. simpl. intuition. Qed.

#[export] Instance set_y_Proper : Proper (Qeq ==> pt_equiv ==> pt_equiv) set_y.
Proof. intros v v' Hv p p' Hp. unfold pt_equiv in *. simpl. intuition. Qed.

#[export] Instance convertPointWithoutDistortion_Proper :
  Proper (eq ==> ip_equiv ==> RelProd Qeq Qeq) convertPointWithoutDistortion.
Proof.
  intros cam ? <- p q [Hi Hj]. unfold convertPointWithoutDistortion, get_u, get_v.
  split; simpl; [rewrite Hj | rewrite Hi]; reflexivity.
Qed.

(** ** Theorems on [compute3DPoints] *)

Definition dist2 (p q : vpPoint) : Q :=
  (oX p - oX q) * (oX p - oX q) + (oY p - oY q) * (oY p - oY q)
  + (oZ p - oZ q) * (oZ p - oZ q).

(** z-component of the cross product of the edges [a -> b] and [b -> c]. *)
Definition turn (a b c : vpPoint) : Q :=
  (oX b - oX a) * (oY c - oY b) - (oY b - oY a) * (oX c - oX b).

(** C17: the four reference points are, in order, the corners
    (-s/2,-s/2), (s/2,-s/2), (s/2,s/2), (-s/2,s/2) of the plane z = 0, with
    normalised coordinates left at zero (they are set later by
    [computePose]). *)
Theorem compute3DPoints_corners (s : Q) :
  Forall2 pt_equiv (compute3DPoints s)
    [mkPoint (- (s / 2)) (- (s / 2)) 0 0 0; mkPoint (s / 2) (- (s / 2)) 0 0 0;
     mkPoint (s / 2) (s / 2) 0 0 0; mkPoint (- (s / 2)) (s / 2) 0 0 0].
Proof.
  unfold compute3DPoints, pt_equiv.
  repeat constructor; simpl; field.
Qed.

(** C18: the four reference points form a square of side [s] in the plane
    z = 0, centred at the origin, with diagonals of length [s sqrt 2], and
    traversed with a constant turn of [s^2] (counter-clockwise in the
    object frame when seen from +z). *)
Theorem compute3DPoints_square (s : Q) :
  exists a b c d, compute3DPoints s = [a; b; c; d] /\
    oZ a == 0 /\ oZ b == 0 /\ oZ c == 0 /\ oZ d == 0 /\
    dist2 a b == s * s /\ dist2 b c == s * s /\
    dist2 c d == s * s /\ dist2 d a == s * s /\
    dist2 a c == 2 * (s * s) /\ dist2 b d == 2 * (s * s) /\
    oX a + oX b + oX c + oX d == 0 /\ oY a + oY b + oY c + oY d == 0 /\
    turn a b c == s * s /\ turn b c d == s * s /\
    turn c d a == s * s /\ turn d a b == s * s.
Proof.
  do 4 eexists. split; [reflexivity|].
  unfold dist2, turn; simpl. repeat split; field.
Qed.

(** ** The camera model *)

(** Converting normalised coordinates to a pixel and back gives them back,
    for a camera with non-zero focal lengths. *)
Lemma convert_roundtrip (cam : vpCameraParameters) (x y : Q) :
  ~ cam_px cam == 0 -> ~ cam_py cam == 0 ->
  fst (convertPointWithoutDistortion cam (convertPoint cam x y)) == x /\
  snd (convertPointWithoutDistortion cam (convertPoint cam x y)) == y.
Proof.
  intros Hx Hy. unfold convertPointWithoutDistortion, convertPoint, get_u, get_v.
  simpl. split; field; assumption.
Qed.
