(* ===== verification/Detector.v ===== *)
(** * [DetectorAprilTag]: detection, acquisition state and pose

    Models [src/src/tracker_object/detector_apriltag.cpp]: the instance
    record (the fields of the base class [Detector] and of
    [DetectorAprilTag]), the static members shared by every instance
    ([Apriltag_detector], [_depth]) as the record [Shared], and the methods
    [analyseImage], [computePose], [detect] and [drawDebug].  The ViSP
    algorithms the code calls are the interface [PoseSolver] and the
    engine's detector [AprilTagEngine]; every theorem holds for every
    instance of them.  A method that reads [_image_points[i]] out of range
    (undefined behaviour) returns [None].  Consecutive frames of one
    detector are the step relation [frame_step] (with its reachable
    detectors) and the function [run], over which the liveness of tracking
    is proved. *)

From Stdlib Require Import String List Bool Arith ZArith QArith Lia.
From Stdlib Require Classes.EquivDec.
From S2P Require Import Prelude TagString Geometry.
Import ListNotations.

Local Open Scope nat_scope.
Local Open Scope agimus_scope.

(** ** Data *)

(** The acquisition state of the base class [Detector]. *)
Inductive State := no_object | newly_acquired_object | already_acquired_object.

Definition State_eq_dec (a b : State) : {a = b} + {a <> b}.
Proof. decide equality. Defined.

#[export] Instance State_EqDec : EquivDec.EqDec State eq := State_eq_dec.

Definition state_eqb (a b : State) : bool := if State_eq_dec a b then true else false.

(** [vpImage<float>]: the depth map, row by row. *)
Definition DepthMap := list (list Q).

(** One detection of the engine: [getMessage(i)] and [getPolygon(i)]. *)
Record Detection := mkDetection {
  det_message : string;
  det_polygon : list vpImagePoint }.

(** The static members [DetectorAprilTag::Apriltag_detector] (its list of
    detections of the last image) and [DetectorAprilTag::_depth]. *)
Record Shared := mkShared {
  Apriltag_detector : list Detection;
  depth : DepthMap }.

(** A [DetectorAprilTag]: the fields of [Detector] ([_cam_parameters],
    [_state], [_image_points], [_cMo], [_error]) and its own [_tag_id],
    [_tag_size_meters]. *)
Record DetectorAprilTag := mkDetector {
  cam_parameters : vpCameraParameters;
  tag_id : Z;
  tag_size_meters : Q;
  state : State;
  image_points : list vpImagePoint;
  cMo : vpHomogeneousMatrix;
  error : Q }.

Definition set_state (s : State) (d : DetectorAprilTag) : DetectorAprilTag :=
  mkDetector (cam_parameters d) (tag_id d) (tag_size_meters d) s
    (image_points d) (cMo d) (error d).
Definition set_image_points (ips : list vpImagePoint) (d : DetectorAprilTag) :=
  mkDetector (cam_parameters d) (tag_id d) (tag_size_meters d) (state d)
    ips (cMo d) (error d).
Definition set_cMo (M : vpHomogeneousMatrix) (d : DetectorAprilTag) :=
  mkDetector (cam_parameters d) (tag_id d) (tag_size_meters d) (state d)
    (image_points d) M (error d).
Definition set_error (e : Q) (d : DetectorAprilTag) :=
  mkDetector (cam_parameters d) (tag_id d) (tag_size_meters d) (state d)
    (image_points d) (cMo d) e.

(** The constructor: [Detector( cam_parameters )] and the two members; the
    base class starts with no object, no points, the identity pose. *)
Definition DetectorAprilTag_new (cam : vpCameraParameters) (id : Z)
    (size : Q) : DetectorAprilTag :=
  mkDetector cam id size no_object [] vpHomogeneousMatrix_identity 0%Q.

(** ** The ViSP algorithms, as interfaces *)

(** [vpPose::computePoseRGBD] returns [false] and leaves [cMo] untouched
    when it cannot solve (for instance without enough valid depth);
    [vpPose::computePose(VIRTUAL_VS, cMo)] refines [cMo] from its current
    value over the points added to the [vpPose]; [computeResidual] is the
    residual of a pose over those points. *)
Class PoseSolver := {
  computePoseRGBD : DepthMap -> list vpImagePoint -> vpCameraParameters -> Q ->
                    option vpHomogeneousMatrix;
  computePoseVVS : list vpPoint -> vpHomogeneousMatrix -> vpHomogeneousMatrix;
  computeResidual : list vpPoint -> vpHomogeneousMatrix -> Q }.

(** [vpDetectorAprilTag::detect(I)]: the tag recognition of one image. *)
Class AprilTagEngine := {
  GrayImage : Type;
  engine_detect : GrayImage -> list Detection }.

(** ** Methods *)

Section Methods.
Context `{PoseSolver}.

(** The loop of [computePose] (lines 103-112): for every reference point
    [i], convert [_image_points[i]] to normalised coordinates, set them on
    [points[i]] and add the point to the [vpPose]; the result is the
    [vpPose]'s list of points. *)
Fixpoint set_image_coords (cam : vpCameraParameters) (ips : list vpImagePoint)
    (pts : list vpPoint) (i : nat) : option (list vpPoint) :=
  match pts with
  | [] => Some []
  | p :: pts' =>
      ip <- nth_error ips i ;;
      let xy := convertPointWithoutDistortion cam ip in
      rest <- set_image_coords cam ips pts' (S i) ;;
      Some (set_y (snd xy) (set_x (fst xy) p) :: rest)
  end.

(** [DetectorAprilTag::computePose] (lines 94-126).  The result of
    [computePoseRGBD] is discarded by the code: on failure [_cMo] keeps its
    previous value and the method still returns [true].  The
    [assert(_state == already_acquired_object)] of line 122 aborts (a
    build with assertions) as [None]. *)
Definition computePose (sh : Shared) (d : DetectorAprilTag) :
    option (bool * DetectorAprilTag) :=
  if state_eqb (state d) no_object then Some (false, d) else
  pts <- set_image_coords (cam_parameters d) (image_points d)
           (compute3DPoints (tag_size_meters d)) 0 ;;
  if state_eqb (state d) newly_acquired_object then
    let M := match computePoseRGBD (depth sh) (image_points d)
                     (cam_parameters d) (tag_size_meters d) with
             | Some M => M
             | None => cMo d
             end in
    Some (true, set_cMo M d)
  else if negb (state_eqb (state d) already_acquired_object) then None
  else
    let M := computePoseVVS pts (cMo d) in
    Some (true, set_error (computeResidual pts M) (set_cMo M d)).

(** The transition of lines 46-49. *)
Definition acquire (s : State) : State :=
  if state_eqb s no_object then newly_acquired_object else already_acquired_object.

(** The loop of [detect] (lines 33-57) over the engine's detections. *)
Fixpoint detect_loop (sh : Shared) (dets : list Detection)
    (d : DetectorAprilTag) : option (bool * DetectorAprilTag) :=
  match dets with
  | [] => Some (false, set_state no_object d)
  | det :: rest =>
      if tag_matches (det_message det) (tag_of (tag_id d)) then
        let d1 := set_image_points (det_polygon det) d in
        let d2 := set_state (acquire (state d1)) d1 in
        '(ok, d3) <- computePose sh d2 ;;
        if ok then Some (true, d3) else Some (false, set_state no_object d3)
      else detect_loop sh rest d
  end.

(** [DetectorAprilTag::detect] (lines 29-61): clear the points, then scan. *)
Definition detect (sh : Shared) (d : DetectorAprilTag) :
    option (bool * DetectorAprilTag) :=
  detect_loop sh (Apriltag_detector sh) (set_image_points [] d).

End Methods.

(** [DetectorAprilTag::analyseImage] (lines 23-27): store the depth map in
    the shared [_depth] and run the engine once on the image. *)
Definition analyseImage `{AprilTagEngine} (gray : GrayImage) (dm : DepthMap)
    (sh : Shared) : bool * Shared :=
  let dets := engine_detect gray in
  (negb (Nat.eqb (length dets) 0), mkShared dets dm).

(** ** [drawDebug] *)

Inductive vpColor := red | green | blue | cyan | none.

(** The drawing calls of [drawDebug], in order. *)
Inductive DrawCmd :=
  | displayLine (a b : vpImagePoint) (c : vpColor) (thickness : nat)
  | displayFrame (M : vpHomogeneousMatrix) (cam : vpCameraParameters)
                 (size : Q) (c : vpColor).

(** The loop of lines 70-71: edge [i] joins corner [i] to corner
    [i == 3 ? 0 : i + 1] in colour [colors[i]]. *)
Fixpoint draw_edges (ips : list vpImagePoint) (i : nat) (colors : list vpColor) :
    option (list DrawCmd) :=
  match colors with
  | [] => Some []
  | c :: cs =>
      a <- nth_error ips i ;;
      b <- nth_error ips (if Nat.eqb i 3 then 0 else S i) ;;
      rest <- draw_edges ips (S i) cs ;;
      Some (displayLine a b c 3 :: rest)
  end.

(** [DetectorAprilTag::drawDebug] (lines 63-73). *)
Definition drawDebug (d : DetectorAprilTag) : option (list DrawCmd) :=
  if state_eqb (state d) no_object then Some [] else
  lines <- draw_edges (image_points d) 0 [red; green; blue; cyan] ;;
  Some (lines ++ [displayFrame (cMo d) (cam_parameters d)
                    (tag_size_meters d * 2)%Q none]).

(** ** Shared lemmas *)

Lemma state_eqb_spec (a b : State) : state_eqb a b = true <-> a = b.
Proof. unfold state_eqb. destruct (State_eq_dec a b); intuition congruence. Qed.

Lemma state_eqb_refl (a : State) : state_eqb a a = true.
Proof. apply state_eqb_spec. reflexivity. Qed.

Lemma state_eqb_neq (a b : State) : a <> b -> state_eqb a b = false.
Proof. intros Hne. destruct (state_eqb a b) eqn:E; [apply state_eqb_spec in E|]; easy. Qed.

#[export] Hint Rewrite state_eqb_refl : agimus_rw.

Lemma acquire_not_no_object (s : State) : acquire s <> no_object.
Proof. unfold acquire. destruct s; cbn; discriminate. Qed.

#[export] Hint Resolve acquire_not_no_object : agimus.

(** The three states: what is neither [no_object] nor
    [newly_acquired_object] is [already_acquired_object], so the
    [assert] of [computePose] holds. *)
Lemma state_trichotomy (s : State) :
  state_eqb s no_object = false -> state_eqb s newly_acquired_object = false ->
  negb (state_eqb s already_acquired_object) = false.
Proof. destruct s; cbn; congruence. Qed.
#[export] Hint Extern 1 False =>
  match goal with H : acquire _ = no_object |- _ => exact (acquire_not_no_object _ H) end
  : agimus.

Lemma set_image_points_twice ips ips' d :
  set_image_points ips (set_image_points ips' d) = set_image_points ips d.
Proof. reflexivity. Qed.

#[export] Hint Rewrite set_image_points_twice : agimus_rw.

Lemma length_compute3DPoints (s : Q) : length (compute3DPoints s) = 4.
Proof. reflexivity. Qed.

Section Lemmas.
Context `{PoseSolver}.

(** The conversion loop reads the indices [i .. i + length pts - 1]: it
    is defined exactly when they are all in range. *)
Lemma set_image_coords_None cam ips pts i :
  set_image_coords cam ips pts i = None <->
  pts <> [] /\ length ips < i + length pts.
Proof.
  revert i. induction pts as [|p pts IH]; intros i; simpl.
  - split; [discriminate | intros [[] _]; reflexivity].
  - destruct (nth_error ips i) eqn:E.
    + apply nth_error_Some_lt in E. rewrite <- Nat.add_succ_comm.
      destruct (set_image_coords cam ips pts (S i)) eqn:E2; simpl.
      * split; [discriminate|]. intros [_ Hlt].
        destruct pts; [simpl in Hlt; lia|].
        assert (Hn : set_image_coords cam ips (v0 :: pts) (S i) <> None) by congruence.
        exfalso. apply Hn, IH. split; [discriminate|exact Hlt].
      * apply IH in E2. intuition (discriminate || lia).
    + apply nth_error_None in E. intuition (discriminate || lia).
Qed.

Lemma set_image_coords_length cam ips pts i res :
  set_image_coords cam ips pts i = Some res -> length res = length pts.
Proof.
  revert i res. induction pts as [|p pts IH]; intros i res Hs; simpl in Hs.
  - inv Hs. reflexivity.
  - simpl_opt. simpl. f_equal. eauto.
Qed.

(** The conversion loop depends only on the rational values of the pixel
    corners and of the reference points. *)
Lemma set_image_coords_equiv cam ips ips' pts pts' i :
  Forall2 ip_equiv ips ips' -> Forall2 pt_equiv pts pts' ->
  opt_rel (Forall2 pt_equiv) (set_image_coords cam ips pts i)
    (set_image_coords cam ips' pts' i).
Proof.
  intros Hips Hpts. revert i.
  induction Hpts as [|p p' pts pts' Hp _ IH]; intros i; simpl; [auto with agimus|].
  destruct (Forall2_nth_error_rel _ _ _ i Hips) as [|a b Hab]; [constructor|].
  destruct (IH (S i)) as [|r r' Hr]; [constructor|].
  destruct (convertPointWithoutDistortion_Proper cam cam eq_refl a b Hab) as [Hx Hy].
  do 2 constructor; [|exact Hr].
  apply set_y_Proper; [exact Hy|]. apply set_x_Proper; [exact Hx | exact Hp].
Qed.

(** [computePose] never changes the state, the points, the id, the size
    or the camera parameters of the detector. *)
Lemma computePose_frame sh d b d' :
  computePose sh d = Some (b, d') ->
  state d' = state d /\ image_points d' = image_points d /\
  tag_id d' = tag_id d /\ tag_size_meters d' = tag_size_meters d /\
  cam_parameters d' = cam_parameters d.
Proof.
  unfold computePose. intros Hc.
  destruct (state_eqb (state d) no_object) eqn:Es; [inv Hc; auto|].
  simpl_opt. destruct (state_eqb (state d) newly_acquired_object) eqn:En; [inv Hc; auto|].
  rewrite (state_trichotomy _ Es En) in Hc. inv Hc; auto.
Qed.

(** [computePose] is undefined exactly when it is asked to pose an acquired
    tag with fewer than four image points. *)
Lemma computePose_None sh d :
  computePose sh d = None <->
  state d <> no_object /\ length (image_points d) < 4.
Proof.
  unfold computePose.
  destruct (state_eqb (state d) no_object) eqn:Es.
  - apply state_eqb_spec in Es. intuition discriminate.
  - assert (state d <> no_object) by (intros E; rewrite E, state_eqb_refl in Es; discriminate).
    destruct (set_image_coords _ _ _ _) eqn:E.
    + assert (~ length (image_points d) < 4).
      { intros Hlt. assert (Hn : set_image_coords (cam_parameters d) (image_points d)
          (compute3DPoints (tag_size_meters d)) 0 = None)
          by (apply set_image_coords_None; split; [discriminate|exact Hlt]).
        congruence. }
      destruct (state_eqb _ newly_acquired_object) eqn:En; [intuition discriminate|].
      rewrite (state_trichotomy _ Es En). intuition discriminate.
    + apply set_image_coords_None in E. simpl in E. intuition.
Qed.

(** On an acquired detector with four points, [computePose] succeeds. *)
Lemma computePose_true sh d :
  state d <> no_object -> 4 <= length (image_points d) ->
  exists d', computePose sh d = Some (true, d').
Proof.
  intros Hs Hl. destruct (computePose sh d) as [[b d']|] eqn:E.
  - exists d'. revert E. unfold computePose.
    pose proof (state_eqb_neq _ _ Hs) as Es. rewrite Es. intros E. simpl_opt.
    destruct (state_eqb _ newly_acquired_object) eqn:En; [congruence|].
    rewrite (state_trichotomy _ Es En) in E. congruence.
  - apply computePose_None in E. lia.
Qed.

(** Detections whose message does not match are skipped. *)
Lemma detect_loop_skip sh pre rest d :
  Forall (fun det => tag_matches (det_message det) (tag_of (tag_id d)) = false) pre ->
  detect_loop sh (pre ++ rest) d = detect_loop sh rest d.
Proof.
  induction 1 as [|det pre Hdet Hpre IH]; [reflexivity|].
  simpl. rewrite Hdet. exact IH.
Qed.

End Lemmas.

(** ** [detect]: behaviour on every branch *)

(** [det] carries the message of tag [id]. *)
Definition matches_id (id : Z) (det : Detection) : bool :=
  tag_matches (det_message det) (tag_of id).

Section DetectTheorems.
Context `{PoseSolver}.

Lemma computePose_false sh d d' :
  computePose sh d = Some (false, d') -> state d = no_object.
Proof.
  unfold computePose. destruct (state_eqb (state d) no_object) eqn:E.
  - intros _. apply state_eqb_spec, E.
  - intros Hc. simpl_opt. destruct (state_eqb _ newly_acquired_object) eqn:En; [discriminate|].
    rewrite (state_trichotomy _ E En) in Hc. discriminate.
Qed.

(** After the transition of [detect], [computePose] always returns [true]
    and keeps the acquired state, the copied points and the rest of the
    detector's configuration. *)
Lemma computePose_after_acquire sh s d b d' :
  computePose sh (set_state (acquire s) d) = Some (b, d') ->
  b = true /\ state d' = acquire s /\ image_points d' = image_points d /\
  tag_id d' = tag_id d /\ tag_size_meters d' = tag_size_meters d /\
  cam_parameters d' = cam_parameters d.
Proof.
  intros Hc. destruct b.
  - apply computePose_frame in Hc. exact (conj eq_refl Hc).
  - apply computePose_false in Hc. simpl in Hc. exfalso. auto with agimus.
Qed.

Lemma detect_loop_result sh dets d b d' :
  detect_loop sh dets d = Some (b, d') -> (b = false <-> state d' = no_object).
Proof.
  revert d. induction dets as [|det dets IH]; intros d Hl; simpl in Hl.
  - inv Hl. simpl. tauto.
  - destruct (tag_matches _ _); [|eauto].
    destruct (computePose sh _) as [[ok d3]|] eqn:Ec; [|discriminate].
    destruct (computePose_after_acquire _ _ _ _ _ Ec) as (-> & Hs & _). inv Hl.
    rewrite Hs. split; [discriminate | intros E; exfalso; auto with agimus].
Qed.

Lemma detect_loop_false sh dets d d' :
  detect_loop sh dets d = Some (false, d') ->
  Forall (fun det => matches_id (tag_id d) det = false) dets /\
  d' = set_state no_object d.
Proof.
  revert d. induction dets as [|det dets IH]; intros d Hl; simpl in Hl.
  - inv Hl. auto.
  - unfold matches_id at 1. destruct (tag_matches _ _) eqn:Em.
    + destruct (computePose sh _) as [[ok d3]|] eqn:Ec; [|discriminate].
      destruct (computePose_after_acquire _ _ _ _ _ Ec) as (-> & _).
      discriminate Hl.
    + destruct (IH d Hl). auto.
Qed.

Lemma detect_loop_None sh dets d :
  detect_loop sh dets d = None <->
  exists pre det post, dets = pre ++ det :: post /\
    Forall (fun x => matches_id (tag_id d) x = false) pre /\
    matches_id (tag_id d) det = true /\ length (det_polygon det) < 4.
Proof.
  split.
  - induction dets as [|det dets IH]; simpl; [discriminate|].
    unfold matches_id at 1. destruct (tag_matches _ _) eqn:Em; intros Hl.
    + exists [], det, dets. repeat split; auto.
      destruct (computePose sh _) eqn:Ec; [destruct p as [[|] ?]; discriminate|].
      apply computePose_None in Ec. exact (proj2 Ec).
    + destruct (IH Hl) as (pre & x & post & -> & Hpre & Hx & Hlen).
      exists (det :: pre), x, post. auto.
  - intros (pre & det & post & -> & Hpre & Hdet & Hlen).
    rewrite detect_loop_skip by exact Hpre. simpl.
    unfold matches_id in Hdet. rewrite Hdet.
    rewrite (proj2 (computePose_None sh (set_state (acquire (state d))
      (set_image_points (det_polygon det) d)))); [reflexivity|].
    split; [apply acquire_not_no_object | exact Hlen].
Qed.

(** C1: when no detection of the frame carries the detector's id,
    [detect] returns [false], the state is [no_object] and the image points
    are cleared; nothing else of the detector changes. *)
Theorem detect_no_match sh d :
  Forall (fun det => matches_id (tag_id d) det = false) (Apriltag_detector sh) ->
  detect sh d = Some (false, set_state no_object (set_image_points [] d)).
Proof.
  intros Hf. unfold detect.
  rewrite <- (app_nil_r (Apriltag_detector sh)), detect_loop_skip by exact Hf.
  reflexivity.
Qed.

(** C2: when the first detection carrying the detector's id has a
    four-corner polygon, [detect] returns [true]; the detector's points are
    that polygon, its state is [newly_acquired_object] if it was
    [no_object] and [already_acquired_object] otherwise, and its pose is
    the one [computePose] computes in that state. *)
Theorem detect_first_match sh d pre det post :
  Apriltag_detector sh = pre ++ det :: post ->
  Forall (fun x => matches_id (tag_id d) x = false) pre ->
  matches_id (tag_id d) det = true ->
  4 <= length (det_polygon det) ->
  exists d', detect sh d = Some (true, d') /\
    computePose sh (set_state (acquire (state d))
                      (set_image_points (det_polygon det) d)) = Some (true, d') /\
    state d' = acquire (state d) /\ image_points d' = det_polygon det.
Proof.
  intros Hdets Hpre Hdet Hlen. unfold detect. rewrite Hdets.
  rewrite detect_loop_skip by exact Hpre. simpl.
  unfold matches_id in Hdet. rewrite Hdet.
  destruct (computePose_true sh (set_state (acquire (state d))
              (set_image_points (det_polygon det) d))) as [d' Hc];
    [apply acquire_not_no_object | exact Hlen |].
  pose proof (computePose_frame _ _ _ _ Hc) as (Hs & Hi & _).
  exists d'. rewrite set_image_points_twice, Hc. auto.
Qed.

(** C3: the guarantee of [detect]: whenever it returns, the state is
    [no_object] exactly when the result is [false]. *)
Theorem detect_false_iff_no_object sh d b d' :
  detect sh d = Some (b, d') -> (b = false <-> state d' = no_object).
Proof. apply detect_loop_result. Qed.

(** C4: [detect] fails only when no detection carries the id: the branch
    "pose could not be computed" (lines 53-55) is never taken, because
    [computePose] returns [false] only in state [no_object], which [detect]
    has just left. *)
Theorem detect_false_no_match sh d d' :
  detect sh d = Some (false, d') ->
  Forall (fun det => matches_id (tag_id d) det = false) (Apriltag_detector sh) /\
  d' = set_state no_object (set_image_points [] d).
Proof. intros Hd. exact (detect_loop_false _ _ _ _ Hd). Qed.

(** C5: [detect] reads [_image_points] out of range (undefined behaviour)
    exactly when the first detection carrying its id has a polygon of fewer
    than four corners. *)
Theorem detect_undefined_iff sh d :
  detect sh d = None <->
  exists pre det post, Apriltag_detector sh = pre ++ det :: post /\
    Forall (fun x => matches_id (tag_id d) x = false) pre /\
    matches_id (tag_id d) det = true /\ length (det_polygon det) < 4.
Proof. exact (detect_loop_None _ _ _). Qed.

End DetectTheorems.

(** ** [computePose]: the two pose paths *)

(** The reference of the conversion loop: the [k]-th point is the [k]-th
    reference corner with the normalised coordinates of the [k]-th image
    point. *)
Definition with_image_coords (cam : vpCameraParameters) (ip : vpImagePoint)
    (p : vpPoint) : vpPoint :=
  let xy := convertPointWithoutDistortion cam ip in
  set_y (snd xy) (set_x (fst xy) p).

Definition pose_points (cam : vpCameraParameters) (ips : list vpImagePoint)
    (pts : list vpPoint) : list vpPoint :=
  map (fun '(ip, p) => with_image_coords cam ip p) (combine ips pts).

Lemma skipn_nth_error {A} (l : list A) i x :
  nth_error l i = Some x -> skipn i l = x :: skipn (S i) l.
Proof.
  revert i. induction l as [|a l IH]; intros [|i] H; simpl in *;
    try discriminate; [congruence | auto].
Qed.

Section PoseTheorems.
Context `{PoseSolver}.

(** The conversion loop computes the reference pairing whenever the image
    points it reads are in range. *)
Lemma set_image_coords_spec cam ips pts i :
  i + length pts <= length ips ->
  set_image_coords cam ips pts i = Some (pose_points cam (skipn i ips) pts).
Proof.
  revert i. induction pts as [|p pts IH]; intros i Hlen; simpl.
  - unfold pose_points. destruct (skipn i ips); reflexivity.
  - simpl in Hlen. destruct (nth_error_lt_Some ips i) as [ip Hip]; [lia|].
    rewrite Hip, IH by lia. rewrite (skipn_nth_error _ _ _ Hip). reflexivity.
Qed.

Lemma computePose_acquired sh d :
  state d <> no_object -> 4 <= length (image_points d) ->
  computePose sh d =
  let pts := pose_points (cam_parameters d) (image_points d)
               (compute3DPoints (tag_size_meters d)) in
  if state_eqb (state d) newly_acquired_object then
    Some (true, set_cMo (match computePoseRGBD (depth sh) (image_points d)
                 (cam_parameters d) (tag_size_meters d) with
               | Some M => M | None => cMo d end) d)
  else
    Some (true, set_error (computeResidual pts (computePoseVVS pts (cMo d)))
                  (set_cMo (computePoseVVS pts (cMo d)) d)).
Proof.
  intros Hs Hl. unfold computePose. pose proof (state_eqb_neq _ _ Hs) as Es.
  rewrite Es, set_image_coords_spec by (simpl; lia). cbv zeta.
  destruct (state_eqb _ newly_acquired_object) eqn:En; [reflexivity|].
  rewrite (state_trichotomy _ Es En). reflexivity.
Qed.

(** C6: on first acquisition, when the RGB-D solver succeeds with [M],
    [computePose] returns [true] with pose [M], whatever the previous
    pose was, and leaves the residual untouched. *)
Theorem computePose_newly_acquired sh d M :
  state d = newly_acquired_object -> 4 <= length (image_points d) ->
  computePoseRGBD (depth sh) (image_points d) (cam_parameters d)
    (tag_size_meters d) = Some M ->
  exists d', computePose sh d = Some (true, d') /\
    cMo d' = M /\ error d' = error d /\ state d' = state d /\
    image_points d' = image_points d.
Proof.
  intros Hs Hl HM. rewrite computePose_acquired by first [rewrite Hs; discriminate | lia].
  rewrite Hs, state_eqb_refl, HM. eexists. repeat split. exact Hs.
Qed.

(** C7: on first acquisition, when the RGB-D solver fails (its [bool] is
    discarded by the code), [computePose] still returns [true] and the
    detector is unchanged: the pose reported is the stale one of an
    earlier acquisition, or the initial identity. *)
Theorem computePose_rgbd_failure sh d :
  state d = newly_acquired_object -> 4 <= length (image_points d) ->
  computePoseRGBD (depth sh) (image_points d) (cam_parameters d)
    (tag_size_meters d) = None ->
  computePose sh d = Some (true, d).
Proof.
  intros Hs Hl HM. rewrite computePose_acquired by first [rewrite Hs; discriminate | lia].
  rewrite Hs, state_eqb_refl, HM. destruct d; reflexivity.
Qed.

(** C8: on a tracked tag, [computePose] returns [true]; the new pose is the
    virtual-visual-servoing refinement warm-started from the previous pose
    over the four reference corners paired in order with the normalised
    image points, and the residual is that of the new pose. *)
Theorem computePose_already_acquired sh d :
  state d = already_acquired_object -> 4 <= length (image_points d) ->
  let pts := pose_points (cam_parameters d) (image_points d)
               (compute3DPoints (tag_size_meters d)) in
  exists d', computePose sh d = Some (true, d') /\
    cMo d' = computePoseVVS pts (cMo d) /\
    error d' = computeResidual pts (cMo d') /\
    state d' = state d /\ image_points d' = image_points d.
Proof.
  intros Hs Hl pts. rewrite computePose_acquired by first [rewrite Hs; discriminate | lia].
  rewrite Hs. simpl. eexists. repeat split. exact Hs.
Qed.

(** C23: the shared depth map is read only on first acquisition: on a
    detector without object or with a tracked tag, [computePose] gives the
    same result whatever the frame's depth map and detections. *)
Theorem computePose_depth_only_on_acquisition sh sh' d :
  state d <> newly_acquired_object -> computePose sh d = computePose sh' d.
Proof.
  intros Hs. unfold computePose.
  destruct (state_eqb (state d) no_object); [reflexivity|].
  rewrite (state_eqb_neq _ _ Hs).
  destruct (set_image_coords _ _ _ _); reflexivity.
Qed.

End PoseTheorems.

(** ** Round trip through the camera model *)

Section RoundTrip.
Context `{PoseSolver}.

(** [p]'s normalised coordinates are its projection through [M]. *)
Definition exact_projection (M : vpHomogeneousMatrix) (p : vpPoint) : Prop :=
  pt_equiv p (project M p).

(** The contract of virtual visual servoing assumed here: started at a pose
    whose projections of the points are exact, it stays there. *)
Hypothesis vvs_fixed_point : forall pts M,
  Forall (exact_projection M) pts -> computePoseVVS pts M = M.

(** The pixel of a reference corner seen through [M]. *)
Definition pixel_of (cam : vpCameraParameters) (M : vpHomogeneousMatrix)
    (p : vpPoint) : vpImagePoint :=
  let q := project M p in convertPoint cam (pt_x q) (pt_y q).

Lemma pose_points_map cam (f : vpPoint -> vpImagePoint) (l : list vpPoint) :
  pose_points cam (map f l) l = map (fun p => with_image_coords cam (f p) p) l.
Proof.
  unfold pose_points. induction l as [|p l IH]; simpl; [reflexivity|].
  f_equal. exact IH.
Qed.

Lemma with_image_coords_exact cam M p :
  ~ cam_px cam == 0%Q -> ~ cam_py cam == 0%Q ->
  exact_projection M (with_image_coords cam (pixel_of cam M p) p).
Proof.
  intros Hpx Hpy. unfold exact_projection, pt_equiv, with_image_coords, pixel_of.
  destruct (convert_roundtrip cam (pt_x (project M p)) (pt_y (project M p)) Hpx Hpy)
    as [Hx Hy].
  cbn [pt_x pt_y oX oY oZ set_x set_y project].
  repeat split; try reflexivity; [exact Hx | exact Hy].
Qed.

Lemma pose_points_exact cam M (l : list vpPoint) :
  ~ cam_px cam == 0%Q -> ~ cam_py cam == 0%Q ->
  Forall (exact_projection M) (pose_points cam (map (pixel_of cam M) l) l).
Proof.
  intros Hpx Hpy. rewrite pose_points_map. apply Forall_map, Forall_forall.
  intros p _. apply with_image_coords_exact; assumption.
Qed.

(** C9: the round trip of the spec: when the four image points are the
    pixels of the reference corners projected through the current pose [M]
    and the camera model, refinement of a tracked tag reproduces [M] and
    reports the residual at [M]. *)
Theorem computePose_reproduces_pose sh d M :
  state d = already_acquired_object -> cMo d = M ->
  ~ cam_px (cam_parameters d) == 0%Q -> ~ cam_py (cam_parameters d) == 0%Q ->
  image_points d = map (pixel_of (cam_parameters d) M)
                       (compute3DPoints (tag_size_meters d)) ->
  exists d', computePose sh d = Some (true, d') /\ cMo d' = M /\
    error d' = computeResidual (pose_points (cam_parameters d) (image_points d)
                 (compute3DPoints (tag_size_meters d))) M.
Proof.
  intros Hs HM Hpx Hpy Hips.
  rewrite computePose_acquired
    by first [rewrite Hs; discriminate
             | rewrite Hips, length_map, length_compute3DPoints; lia].
  rewrite Hs. simpl. rewrite HM, vvs_fixed_point.
  - eexists. split; [reflexivity|]. split; reflexivity.
  - rewrite Hips. apply pose_points_exact; assumption.
Qed.

End RoundTrip.

(** ** Refinement of the spec's acquisition machine *)

(** The machine of the spec (section 4.2): a frame either shows the tag or
    not; the state collapses to [NoObject] on a miss, and otherwise becomes
    [NewlyAcquired] after [NoObject] and [AlreadyAcquired] after an
    acquisition. *)
Module Spec.

Inductive AbsState := NoObject | NewlyAcquired | AlreadyAcquired.

Definition step (s : AbsState) (visible : bool) : bool * AbsState :=
  match visible, s with
  | false, _ => (false, NoObject)
  | true, NoObject => (true, NewlyAcquired)
  | true, _ => (true, AlreadyAcquired)
  end.

End Spec.

Definition abs_state (s : State) : Spec.AbsState :=
  match s with
  | no_object => Spec.NoObject
  | newly_acquired_object => Spec.NewlyAcquired
  | already_acquired_object => Spec.AlreadyAcquired
  end.

Lemma abs_acquire (s : State) :
  Spec.step (abs_state s) true = (true, abs_state (acquire s)).
Proof. destruct s; reflexivity. Qed.

Section Refinement.
Context `{PoseSolver}.

Lemma detect_loop_refines sh dets d b d' :
  detect_loop sh dets d = Some (b, d') ->
  (b, abs_state (state d')) =
  Spec.step (abs_state (state d)) (existsb (matches_id (tag_id d)) dets).
Proof.
  revert d. induction dets as [|det dets IH]; intros d Hl; simpl in Hl.
  - inv Hl. destruct (state d); reflexivity.
  - simpl. unfold matches_id at 1. destruct (tag_matches _ _); simpl; [|eauto].
    destruct (computePose sh _) as [[ok d3]|] eqn:Ec; [|discriminate].
    destruct (computePose_after_acquire _ _ _ _ _ Ec) as (-> & Hs & _). inv Hl.
    rewrite Hs. symmetry. apply abs_acquire.
Qed.

(** C10: [detect] refines the spec's machine: its result and the
    abstraction of its new state are the spec's step from the abstraction
    of the old state, where the tag is visible when some detection of the
    frame carries its id. *)
Theorem detect_refines_spec sh d b d' :
  detect sh d = Some (b, d') ->
  (b, abs_state (state d')) =
  Spec.step (abs_state (state d))
    (existsb (matches_id (tag_id d)) (Apriltag_detector sh)).
Proof. intros Hd. exact (detect_loop_refines _ _ _ _ _ Hd). Qed.

End Refinement.

(** ** [drawDebug] *)

(** C13: [drawDebug] draws nothing for a detector without object;
    otherwise, with corners [a b c e] first in [_image_points], it draws the
    closed quadrilateral [a-b] red, [b-c] green, [c-e] blue, [e-a] cyan,
    each of thickness 3, then the pose frame at [2 * tag_size]. *)
Theorem drawDebug_spec d a b c e rest :
  image_points d = a :: b :: c :: e :: rest ->
  drawDebug d =
  if state_eqb (state d) no_object then Some []
  else Some [displayLine a b red 3; displayLine b c green 3;
             displayLine c e blue 3; displayLine e a cyan 3;
             displayFrame (cMo d) (cam_parameters d) (tag_size_meters d * 2)%Q none].
Proof.
  intros Hips. unfold drawDebug. destruct (state_eqb _ _); [reflexivity|].
  rewrite Hips. reflexivity.
Qed.

(** [drawDebug] is defined on a detector with at least four points. *)
Lemma drawDebug_defined d :
  4 <= length (image_points d) -> drawDebug d <> None.
Proof.
  unfold drawDebug. destruct (image_points d) as [|a [|b [|c [|e rest]]]];
    simpl; try lia; destruct (state_eqb _ _); discriminate.
Qed.

(** C26: [drawDebug] reads [_image_points] out of range (undefined
    behaviour) exactly when the detector has an object but fewer than four
    points; without an object it draws nothing, whatever its points. *)
Theorem drawDebug_undefined_iff d :
  drawDebug d = None <-> state d <> no_object /\ length (image_points d) < 4.
Proof.
  destruct (state_eqb (state d) no_object) eqn:Es.
  - apply state_eqb_spec in Es. unfold drawDebug. rewrite Es. simpl.
    split; [discriminate | intros [[] _]; reflexivity].
  - assert (Hs : state d <> no_object)
      by (intros E; rewrite E, state_eqb_refl in Es; discriminate).
    split.
    + intros Hn. split; [exact Hs|].
      destruct (Nat.lt_ge_cases (length (image_points d)) 4) as [|Hl]; [assumption|].
      exfalso. exact (drawDebug_defined d Hl Hn).
    + intros [_ Hl]. unfold drawDebug. rewrite Es.
      destruct (image_points d) as [|a [|b [|c [|e rest]]]]; simpl in *;
        (reflexivity || lia).
Qed.

(** ** Consecutive frames *)

(** The invariant of a detector between frames: without object it holds no
    points; with an object it holds the four corners of its tag. *)
Definition det_wf (d : DetectorAprilTag) : Prop :=
  (state d = no_object /\ image_points d = []) \/
  (state d <> no_object /\ length (image_points d) = 4).

(** The engine's detections all have four corners. *)
Definition quads (dets : list Detection) : Prop :=
  Forall (fun det => length (det_polygon det) = 4) dets.

Section Frames.
Context `{PoseSolver} `{AprilTagEngine}.

(** One frame for one detector: the shared [analyseImage] of the frame,
    then this detector's [detect]. *)
Inductive frame_step : DetectorAprilTag -> DetectorAprilTag -> Prop :=
  | frame_step_intro gray dm sh b d d' :
      detect (snd (analyseImage gray dm sh)) d = Some (b, d') ->
      frame_step d d'.

(** The detectors a run of frames produces from a freshly constructed one. *)
Inductive reachable (cam : vpCameraParameters) (id : Z) (size : Q) :
    DetectorAprilTag -> Prop :=
  | reach_init : reachable cam id size (DetectorAprilTag_new cam id size)
  | reach_frame d d' : reachable cam id size d -> frame_step d d' ->
                       reachable cam id size d'.

Lemma detect_loop_true sh dets d d' :
  detect_loop sh dets d = Some (true, d') ->
  exists det, In det dets /\ image_points d' = det_polygon det /\
    state d' <> no_object /\ tag_id d' = tag_id d /\
    tag_size_meters d' = tag_size_meters d /\ cam_parameters d' = cam_parameters d.
Proof.
  revert d. induction dets as [|det dets IH]; intros d Hl; simpl in Hl; [discriminate|].
  destruct (tag_matches _ _).
  - destruct (computePose sh _) as [[ok d3]|] eqn:Ec; [|discriminate].
    destruct (computePose_after_acquire _ _ _ _ _ Ec) as (-> & Hs & Hi & Hid & Hsz & Hc).
    inv Hl. exists det. rewrite Hs, Hi, Hid, Hsz, Hc. simpl.
    intuition auto with agimus.
  - destruct (IH d Hl) as (x & Hin & Hx). exists x. simpl. auto.
Qed.

(** [detect] on a frame of four-corner detections keeps the invariant and
    the detector's id, size and camera. *)
Lemma detect_wf sh d b d' :
  quads (Apriltag_detector sh) ->
  detect sh d = Some (b, d') ->
  det_wf d' /\ tag_id d' = tag_id d /\ tag_size_meters d' = tag_size_meters d /\
  cam_parameters d' = cam_parameters d.
Proof.
  intros Hq Hd. destruct b.
  - destruct (detect_loop_true _ _ _ _ Hd) as (det & Hin & Hi & Hs & Hrest).
    split; [|exact Hrest]. right. split; [exact Hs|].
    rewrite Hi. exact (proj1 (Forall_forall _ _) Hq det Hin).
  - destruct (detect_loop_false _ _ _ _ Hd) as [_ ->]. unfold det_wf. simpl. auto.
Qed.

(** [detect] is defined on a frame of four-corner detections. *)
Lemma detect_defined sh d : quads (Apriltag_detector sh) -> detect sh d <> None.
Proof.
  intros Hq Hn. apply detect_loop_None in Hn.
  destruct Hn as (pre & det & post & Heq & _ & _ & Hlen).
  unfold quads in Hq. rewrite Heq, Forall_app in Hq. destruct Hq as [_ Hq].
  inv Hq. lia.
Qed.

(** The recognition engine reports four-corner polygons on every image
    (the spec's data model, section 3); C11 and C12 are proved under this
    assumption, which becomes their first hypothesis. *)
Hypothesis engine_quads : forall gray, quads (engine_detect gray).

(** C11: a frame keeps the invariant: after any frame whose engine reports
    four-corner polygons, a detector without object holds no points and a
    detector with an object holds exactly four. *)
Theorem frame_step_wf d d' : frame_step d d' -> det_wf d'.
Proof.
  intros [gray dm sh b d0 d1 Hd].
  exact (proj1 (detect_wf (snd (analyseImage gray dm sh)) _ _ _ (engine_quads gray) Hd)).
Qed.

Lemma reachable_inv cam id size d :
  reachable cam id size d ->
  det_wf d /\ tag_id d = id /\ tag_size_meters d = size /\ cam_parameters d = cam.
Proof.
  induction 1 as [|d d' _ IH Hstep].
  - unfold det_wf. simpl. auto.
  - inversion Hstep as [gray dm sh b d0 d1 Hd]; subst.
    destruct (detect_wf (snd (analyseImage gray dm sh)) _ _ _ (engine_quads gray) Hd) as (Hwf & -> & -> & ->).
    intuition.
Qed.

(** C12: for an engine that reports four-corner polygons on every image
    ([engine_quads]), every detector that a run of frames produces from a
    freshly constructed one keeps the id, size and intrinsics it was
    built with, and [drawDebug] on it is defined: it never reads
    [_image_points] out of range, because an acquired detector always
    holds four corners. *)
Theorem reachable_defined cam id size d :
  reachable cam id size d ->
  drawDebug d <> None /\
  tag_id d = id /\ tag_size_meters d = size /\ cam_parameters d = cam.
Proof.
  intros Hr. destruct (reachable_inv _ _ _ _ Hr) as [Hwf Hcfg]. split; [|exact Hcfg].
  unfold drawDebug. destruct Hwf as [[Hs _] | [Hs Hl]].
  - rewrite Hs. discriminate.
  - apply drawDebug_defined. lia.
Qed.

End Frames.

(** ** Representation independence *)

(** the points [computePose] hands to the pose solver depend only on
    the rational values of its inputs: tag sizes equal as rationals and
    pixel corners with equal coordinates give the same definedness and
    point lists equal coordinate by coordinate. *)
Theorem computePose_points_equiv cam ips ips' s s' :
  (s == s')%Q -> Forall2 ip_equiv ips ips' ->
  opt_rel (Forall2 pt_equiv)
    (set_image_coords cam ips (compute3DPoints s) 0)
    (set_image_coords cam ips' (compute3DPoints s') 0).
Proof.
  intros Hs Hips. apply set_image_coords_equiv; [exact Hips|].
  apply compute3DPoints_Proper. exact Hs.
Qed.

(** ** A pose that survives a miss *)

Section StalePose.
Context `{PoseSolver}.

(** C28: the pose is not discarded when the tag is lost: a detector that
    misses its tag on one frame and finds it again (with four corners) on
    the next, where the RGB-D solve fails, reports a successful
    acquisition in state [newly_acquired_object] with the pose it had
    before the miss, whereas the spec (section 3) says a failed detection
    discards the pose. *)
Theorem stale_pose_after_miss sh1 sh2 d pre det post :
  Forall (fun x => matches_id (tag_id d) x = false) (Apriltag_detector sh1) ->
  Apriltag_detector sh2 = pre ++ det :: post ->
  Forall (fun x => matches_id (tag_id d) x = false) pre ->
  matches_id (tag_id d) det = true -> 4 <= length (det_polygon det) ->
  computePoseRGBD (depth sh2) (det_polygon det) (cam_parameters d)
    (tag_size_meters d) = None ->
  exists d1 d2, detect sh1 d = Some (false, d1) /\ detect sh2 d1 = Some (true, d2) /\
    state d2 = newly_acquired_object /\ cMo d2 = cMo d.
Proof.
  intros Hmiss Hdets Hpre Hdet Hlen Hrgbd.
  set (d1 := set_state no_object (set_image_points [] d)).
  assert (E1 : detect sh1 d = Some (false, d1)).
  { unfold detect. rewrite <- (app_nil_r (Apriltag_detector sh1)),
      detect_loop_skip by exact Hmiss. reflexivity. }
  set (d2 := set_state newly_acquired_object (set_image_points (det_polygon det) d1)).
  assert (Hc : computePose sh2 d2 = Some (true, set_cMo (cMo d) d2)).
  { rewrite computePose_acquired by (simpl; (discriminate || lia)).
    simpl. rewrite Hrgbd. reflexivity. }
  exists d1, (set_cMo (cMo d) d2). split; [exact E1|].
  split; [|split; reflexivity].
  unfold detect. rewrite Hdets, detect_loop_skip by exact Hpre. simpl.
  unfold matches_id in Hdet. rewrite Hdet, set_image_points_twice.
  change (set_state (acquire no_object) (set_image_points (det_polygon det) d1)) with d2.
  rewrite Hc. reflexivity.
Qed.

End StalePose.

(** ** Runs of frames: liveness of tracking *)

(** The tag [id] is visible in a frame: some detection carries it, and the
    engine reports four-corner polygons. *)
Definition visible (id : Z) (sh : Shared) : Prop :=
  quads (Apriltag_detector sh) /\
  existsb (matches_id id) (Apriltag_detector sh) = true.

Section Liveness.
Context `{PoseSolver}.

(** The results of [detect] over consecutive frames, as the node's [spin]
    calls it once per frame on the same detector. *)
Fixpoint run (frames : list Shared) (d : DetectorAprilTag) :
    option (list bool * DetectorAprilTag) :=
  match frames with
  | [] => Some ([], d)
  | sh :: frames =>
      ' (b, d1) <- detect sh d ;;
      ' (bs, d2) <- run frames d1 ;;
      Some (b :: bs, d2)
  end.

(** A frame showing the tag succeeds and moves the state by [acquire]. *)
Lemma detect_loop_visible sh dets d :
  quads dets -> existsb (matches_id (tag_id d)) dets = true ->
  exists d1, detect_loop sh dets d = Some (true, d1) /\
    state d1 = acquire (state d) /\ tag_id d1 = tag_id d.
Proof.
  induction 1 as [|det dets Hlen _ IH]; [discriminate|]. simpl.
  unfold matches_id at 1. destruct (tag_matches _ _); [intros _|exact IH].
  destruct (computePose_true sh (set_state (acquire (state d))
              (set_image_points (det_polygon det) d))) as [d3 Hc];
    [apply acquire_not_no_object | simpl; lia |].
  destruct (computePose_frame _ _ _ _ Hc) as (Hs & _ & Hid & _).
  rewrite Hc. exists d3. auto.
Qed.

Lemma detect_visible sh d :
  visible (tag_id d) sh ->
  exists d1, detect sh d = Some (true, d1) /\ state d1 = acquire (state d) /\
    tag_id d1 = tag_id d.
Proof. intros [Hq Hv]. exact (detect_loop_visible sh _ (set_image_points [] d) Hq Hv). Qed.

Lemma acquire_acquire (s : State) : acquire (acquire s) = already_acquired_object.
Proof. destruct s; reflexivity. Qed.

(** C24: liveness of tracking: over any run of frames that all show the
    tag, every [detect] succeeds; the state is [acquire] of the initial one
    after one frame and [already_acquired_object] after two or more, and the
    detector keeps its id. *)
Theorem run_visible_tracks frames d :
  Forall (visible (tag_id d)) frames ->
  exists d', run frames d = Some (repeat true (length frames), d') /\
    tag_id d' = tag_id d /\
    state d' = match frames with
               | [] => state d
               | [_] => acquire (state d)
               | _ => already_acquired_object
               end.
Proof.
  revert d. induction frames as [|sh frames IH]; intros d Hv;
    [exists d; auto|].
  inv Hv. destruct (detect_visible sh d) as (d1 & Hd & Hs & Hid); [assumption|].
  destruct (IH d1) as (d' & Hr & Hid' & Hs'); [rewrite Hid; assumption|].
  exists d'. simpl. rewrite Hd, Hr. split; [reflexivity|]. split; [congruence|].
  rewrite Hs', Hs. destruct frames as [|? [|? ?]]; auto using acquire_acquire.
Qed.

End Liveness.

(** ** The spec's three-frame scenario *)

Section Scenario.
Context `{PoseSolver}.

(** A frame whose only detection carrying the id has four corners. *)
Lemma detect_single_match sh d det :
  Apriltag_detector sh = [det] -> matches_id (tag_id d) det = true ->
  length (det_polygon det) = 4 ->
  detect sh d = computePose sh (set_state (acquire (state d))
                                  (set_image_points (det_polygon det) d)).
Proof.
  intros Hdets Hm Hl. unfold detect. rewrite Hdets. simpl.
  unfold matches_id in Hm. rewrite Hm.
  destruct (computePose_true sh (set_state (acquire (state d))
              (set_image_points (det_polygon det) d))) as [d' Hc];
    [apply acquire_not_no_object | simpl; lia |].
  rewrite set_image_points_twice, Hc. reflexivity.
Qed.

(** C19: the scenario of the spec's section 8, for every pose solver: a
    detector of id 3 is acquired on a first frame showing the tag (pose of
    the RGB-D solve, state [newly_acquired_object]), tracked on a second
    frame (pose refined by virtual visual servoing from the first pose over
    the second frame's corners, residual of that pose, state
    [already_acquired_object]), and lost on a third frame without it
    (state [no_object], no points). *)
Theorem scenario_three_frames cam size dm1 dm2 dm3 det1 det2 others M :
  matches_id 3 det1 = true -> length (det_polygon det1) = 4 ->
  matches_id 3 det2 = true -> length (det_polygon det2) = 4 ->
  Forall (fun x => matches_id 3 x = false) others ->
  computePoseRGBD dm1 (det_polygon det1) cam size = Some M ->
  let pts2 := pose_points cam (det_polygon det2) (compute3DPoints size) in
  exists d1 d2 d3,
    detect (mkShared [det1] dm1) (DetectorAprilTag_new cam 3 size) = Some (true, d1) /\
    state d1 = newly_acquired_object /\ cMo d1 = M /\
    detect (mkShared [det2] dm2) d1 = Some (true, d2) /\
    state d2 = already_acquired_object /\ cMo d2 = computePoseVVS pts2 M /\
    error d2 = computeResidual pts2 (computePoseVVS pts2 M) /\
    detect (mkShared others dm3) d2 = Some (false, d3) /\
    state d3 = no_object /\ image_points d3 = [].
Proof.
  intros Hm1 Hl1 Hm2 Hl2 Hno HM pts2.
  set (d0 := DetectorAprilTag_new cam 3 size).
  set (d1 := set_cMo M (set_state newly_acquired_object (set_image_points (det_polygon det1) d0))).
  assert (E1 : detect (mkShared [det1] dm1) d0 = Some (true, d1)).
  { rewrite (detect_single_match _ _ det1) by (reflexivity || assumption).
    rewrite computePose_acquired by (simpl; (discriminate || lia)).
    cbn [state set_state acquire state_eqb]. simpl. rewrite HM. reflexivity. }
  set (d1' := set_state already_acquired_object (set_image_points (det_polygon det2) d1)).
  set (M2 := computePoseVVS pts2 M).
  assert (E2 : detect (mkShared [det2] dm2) d1 = Some (true, set_error (computeResidual pts2 M2) (set_cMo M2 d1'))).
  { rewrite (detect_single_match _ _ det2) by (reflexivity || assumption).
    rewrite computePose_acquired by (simpl; (discriminate || lia)). reflexivity. }
  set (d2 := set_error (computeResidual pts2 M2) (set_cMo M2 d1')).
  assert (E3 : detect (mkShared others dm3) d2 =
               Some (false, set_state no_object (set_image_points [] d2))).
  { unfold detect. rewrite <- (app_nil_r (Apriltag_detector _)), detect_loop_skip
      by exact Hno. reflexivity. }
  exists d1, d2, (set_state no_object (set_image_points [] d2)).
  split; [exact E1|]. split; [reflexivity|]. split; [reflexivity|].
  split; [exact E2|]. split; [reflexivity|]. split; [reflexivity|]. split; [reflexivity|].
  split; [exact E3|]. split; reflexivity.
Qed.

End Scenario.

(** ** Concrete runs *)

(** A solver for concrete runs: the RGB-D solve needs a non-empty depth
    map, refinement keeps its start pose (so it has the fixed point of
    [computePose_reproduces_pose]) and the residual is zero. *)
Definition demo_pose : vpHomogeneousMatrix :=
  mkHomogeneousMatrix 1 0 0 0 1 0 0 0 1 0 0 (1 # 2).

Definition demo_solver : PoseSolver := {|
  computePoseRGBD := fun dm _ _ _ => match dm with [] => None | _ => Some demo_pose end;
  computePoseVVS := fun _ M => M;
  computeResidual := fun _ _ => 0%Q |}.

Definition demo_cam : vpCameraParameters := mkCameraParameters 600 600 320 240 0 0.

Definition demo_quad : list vpImagePoint :=
  [mkImagePoint 200 300; mkImagePoint 200 340; mkImagePoint 240 340; mkImagePoint 240 300].

Definition demo_frame (dets : list Detection) : Shared := mkShared dets [[1%Q]].

Definition tag3 : Detection := mkDetection "36h11 id: 3" demo_quad.
Definition tag13 : Detection := mkDetection "36h11 id: 13" demo_quad.

(** An engine whose image is the choice of showing tag 3 or nothing. *)
Definition demo_engine : AprilTagEngine := {|
  GrayImage := bool;
  engine_detect := fun show => if show then [tag13; tag3] else [] |}.

(** ** Witnesses: the theorems applied to concrete detectors *)

Definition demo_detector : DetectorAprilTag := DetectorAprilTag_new demo_cam 3 (1 # 10).

(** The detector after a first frame showing tag 3. *)
Definition demo_acquired : DetectorAprilTag :=
  mkDetector demo_cam 3 (1 # 10) newly_acquired_object demo_quad demo_pose 0%Q.

Lemma detect_no_match_witness :
  Forall (fun det => matches_id (tag_id demo_detector) det = false)
    (Apriltag_detector (demo_frame [tag13])) /\
  @detect demo_solver (demo_frame [tag13]) demo_detector =
    Some (false, set_state no_object (set_image_points [] demo_detector)).
Proof.
  split; [vm_compute; repeat constructor|].
  apply (@detect_no_match demo_solver). vm_compute. repeat constructor.
Defined.

Lemma detect_first_match_witness :
  exists d', @detect demo_solver (demo_frame [tag13; tag3]) demo_detector = Some (true, d') /\
    @computePose demo_solver (demo_frame [tag13; tag3])
      (set_state (acquire (state demo_detector))
         (set_image_points (det_polygon tag3) demo_detector)) = Some (true, d') /\
    state d' = acquire (state demo_detector) /\ image_points d' = det_polygon tag3.
Proof.
  apply (@detect_first_match demo_solver _ _ [tag13] tag3 []);
    [reflexivity | vm_compute; repeat constructor | vm_compute; reflexivity | simpl; lia].
Defined.

Lemma detect_false_iff_no_object_witness :
  @detect demo_solver (demo_frame [tag13]) demo_detector =
    Some (false, set_state no_object (set_image_points [] demo_detector)) /\
  (false = false <-> state (set_state no_object (set_image_points [] demo_detector)) = no_object).
Proof.
  split; [vm_compute; reflexivity|].
  apply (@detect_false_iff_no_object demo_solver (demo_frame [tag13]) demo_detector).
  vm_compute. reflexivity.
Defined.

Lemma detect_false_no_match_witness :
  @detect demo_solver (demo_frame [tag13]) demo_detector =
    Some (false, set_state no_object (set_image_points [] demo_detector)) /\
  Forall (fun det => matches_id (tag_id demo_detector) det = false)
    (Apriltag_detector (demo_frame [tag13])) /\
  set_state no_object (set_image_points [] demo_detector) =
    set_state no_object (set_image_points [] demo_detector).
Proof.
  split; [vm_compute; reflexivity|].
  apply (@detect_false_no_match demo_solver). vm_compute. reflexivity.
Defined.

Lemma computePose_newly_acquired_witness :
  exists d', @computePose demo_solver (demo_frame []) demo_acquired = Some (true, d') /\
    cMo d' = demo_pose /\ error d' = error demo_acquired /\
    state d' = state demo_acquired /\ image_points d' = image_points demo_acquired.
Proof.
  apply (@computePose_newly_acquired demo_solver);
    [reflexivity | simpl; lia | vm_compute; reflexivity].
Defined.

Lemma computePose_rgbd_failure_witness :
  @computePose demo_solver (mkShared [] []) demo_acquired = Some (true, demo_acquired).
Proof.
  apply (@computePose_rgbd_failure demo_solver);
    [reflexivity | simpl; lia | vm_compute; reflexivity].
Defined.

Definition demo_tracked : DetectorAprilTag := set_state already_acquired_object demo_acquired.

Lemma computePose_already_acquired_witness :
  let pts := pose_points (cam_parameters demo_tracked) (image_points demo_tracked)
               (compute3DPoints (tag_size_meters demo_tracked)) in
  exists d', @computePose demo_solver (demo_frame []) demo_tracked = Some (true, d') /\
    cMo d' = @computePoseVVS demo_solver pts (cMo demo_tracked) /\
    error d' = @computeResidual demo_solver pts (cMo d') /\
    state d' = state demo_tracked /\ image_points d' = image_points demo_tracked.
Proof.
  apply (@computePose_already_acquired demo_solver); [reflexivity | simpl; lia].
Defined.

(** A tracked detector whose points are the exact pixels of its corners
    through [demo_pose]. *)
Definition demo_exact : DetectorAprilTag :=
  mkDetector demo_cam 3 (1 # 10) already_acquired_object
    (map (pixel_of demo_cam demo_pose) (compute3DPoints (1 # 10))) demo_pose 0%Q.

Lemma computePose_reproduces_pose_witness :
  exists d', @computePose demo_solver (demo_frame []) demo_exact = Some (true, d') /\
    cMo d' = demo_pose /\
    error d' = @computeResidual demo_solver (pose_points (cam_parameters demo_exact)
                 (image_points demo_exact) (compute3DPoints (tag_size_meters demo_exact)))
                 demo_pose.
Proof.
  apply (@computePose_reproduces_pose demo_solver (fun _ _ _ => eq_refl));
    [reflexivity | reflexivity | vm_compute; discriminate
    | vm_compute; discriminate | reflexivity].
Defined.

Lemma detect_refines_spec_witness :
  @detect demo_solver (demo_frame [tag13; tag3]) demo_detector = Some (true, demo_acquired) /\
  (true, abs_state (state demo_acquired)) =
  Spec.step (abs_state (state demo_detector))
    (existsb (matches_id (tag_id demo_detector)) (Apriltag_detector (demo_frame [tag13; tag3]))).
Proof.
  split; [vm_compute; reflexivity|].
  apply (@detect_refines_spec demo_solver). vm_compute. reflexivity.
Defined.

Lemma demo_engine_quads : forall show, @quads (@engine_detect demo_engine show).
Proof. intros []; vm_compute; repeat constructor. Qed.

Lemma demo_frame_step :
  @frame_step demo_solver demo_engine demo_detector demo_acquired.
Proof.
  apply (@frame_step_intro demo_solver demo_engine true [[1%Q]] (demo_frame []) true).
  vm_compute. reflexivity.
Qed.

Lemma frame_step_wf_witness :
  @frame_step demo_solver demo_engine demo_detector demo_acquired /\ det_wf demo_acquired.
Proof.
  split; [exact demo_frame_step|].
  apply (@frame_step_wf demo_solver demo_engine demo_engine_quads demo_detector).
  exact demo_frame_step.
Defined.

Lemma reachable_defined_witness :
  @reachable demo_solver demo_engine demo_cam 3 (1 # 10) demo_acquired /\
  drawDebug demo_acquired <> None /\
  tag_id demo_acquired = 3%Z /\ tag_size_meters demo_acquired = (1 # 10)%Q /\
  cam_parameters demo_acquired = demo_cam.
Proof.
  assert (Hr : @reachable demo_solver demo_engine demo_cam 3 (1 # 10) demo_acquired)
    by exact (reach_frame _ _ _ _ _ (reach_init _ _ _) demo_frame_step).
  split; [exact Hr|].
  exact (@reachable_defined demo_solver demo_engine demo_engine_quads _ _ _ _ Hr).
Defined.

Lemma drawDebug_spec_witness :
  let '(a, b, c, e) := (mkImagePoint 200 300, mkImagePoint 200 340,
                        mkImagePoint 240 340, mkImagePoint 240 300) in
  image_points demo_acquired = [a; b; c; e] /\
  drawDebug demo_acquired =
  if state_eqb (state demo_acquired) no_object then Some []
  else Some [displayLine a b red 3; displayLine b c green 3;
             displayLine c e blue 3; displayLine e a cyan 3;
             displayFrame (cMo demo_acquired) (cam_parameters demo_acquired)
               (tag_size_meters demo_acquired * 2)%Q none].
Proof.
  simpl. split; [reflexivity|].
  apply (drawDebug_spec demo_acquired _ _ _ _ []). reflexivity.
Defined.

Lemma computePose_depth_only_on_acquisition_witness :
  state demo_tracked <> newly_acquired_object /\
  @computePose demo_solver (demo_frame [tag3]) demo_tracked =
  @computePose demo_solver (mkShared [] []) demo_tracked.
Proof.
  split; [discriminate|].
  apply (@computePose_depth_only_on_acquisition demo_solver). discriminate.
Defined.

Definition demo_frames : list Shared :=
  [demo_frame [tag13; tag3]; demo_frame [tag3]; demo_frame [tag3; tag13]].

Lemma run_visible_tracks_witness :
  Forall (visible (tag_id demo_detector)) demo_frames /\
  exists d', @run demo_solver demo_frames demo_detector =
      Some (repeat true (length demo_frames), d') /\
    tag_id d' = tag_id demo_detector /\ state d' = already_acquired_object.
Proof.
  assert (Hv : Forall (visible (tag_id demo_detector)) demo_frames)
    by (repeat constructor; vm_compute; reflexivity).
  split; [exact Hv|]. apply (@run_visible_tracks demo_solver). exact Hv.
Defined.

Lemma drawDebug_undefined_iff_witness :
  (state demo_acquired <> no_object /\
   length (image_points (set_image_points (firstn 3 demo_quad) demo_acquired)) < 4) /\
  drawDebug (set_image_points (firstn 3 demo_quad) demo_acquired) = None.
Proof.
  assert (H : state (set_image_points (firstn 3 demo_quad) demo_acquired) <> no_object /\
              length (image_points (set_image_points (firstn 3 demo_quad) demo_acquired)) < 4)
    by (split; [discriminate | simpl; lia]).
  split; [exact H|]. exact (proj2 (drawDebug_undefined_iff _) H).
Defined.

(** A tracked tag lost on one frame and found again on a frame without
    depth: the pose reported is the one from before the miss. *)
Lemma stale_pose_after_miss_witness :
  exists d1 d2,
    @detect demo_solver (demo_frame [tag13]) demo_tracked = Some (false, d1) /\
    @detect demo_solver (mkShared [tag13; tag3] []) d1 = Some (true, d2) /\
    state d2 = newly_acquired_object /\ cMo d2 = cMo demo_tracked.
Proof.
  apply (@stale_pose_after_miss demo_solver (demo_frame [tag13])
           (mkShared [tag13; tag3] []) demo_tracked [tag13] tag3 []);
    [vm_compute; repeat constructor | reflexivity | vm_compute; repeat constructor
    | vm_compute; reflexivity | simpl; lia | reflexivity].
Defined.

(** The scenario on the demonstration solver. *)
Lemma scenario_three_frames_witness :
  exists d1 d2 d3,
    @detect demo_solver (mkShared [tag3] [[1%Q]]) (DetectorAprilTag_new demo_cam 3 (1 # 10)) = Some (true, d1) /\
    state d1 = newly_acquired_object /\ cMo d1 = demo_pose /\
    @detect demo_solver (mkShared [tag3] [[1%Q]]) d1 = Some (true, d2) /\
    state d2 = already_acquired_object /\
    cMo d2 = @computePoseVVS demo_solver (pose_points demo_cam (det_polygon tag3) (compute3DPoints (1 # 10))) demo_pose /\
    error d2 = @computeResidual demo_solver (pose_points demo_cam (det_polygon tag3) (compute3DPoints (1 # 10)))
                 (@computePoseVVS demo_solver (pose_points demo_cam (det_polygon tag3) (compute3DPoints (1 # 10))) demo_pose) /\
    @detect demo_solver (mkShared [tag13] [[1%Q]]) d2 = Some (false, d3) /\
    state d3 = no_object /\ image_points d3 = [].
Proof.
  apply (@scenario_three_frames demo_solver demo_cam (1 # 10) [[1%Q]] [[1%Q]] [[1%Q]]
           tag3 tag3 [tag13] demo_pose);
    [vm_compute; reflexivity | reflexivity | vm_compute; reflexivity | reflexivity
    | vm_compute; repeat constructor | reflexivity].
Defined.
