(* ===== verification/Node.v ===== *)
(** * The tracking node

    Models the class [Node] of
    [src/include/agimus_vision/tracker_object/node.hpp]: its fields as the
    record [Node], and its operations ([cameraInfoCallback],
    [frameCallback], [addAprilTagService], one pass of [spin]) from the
    spec, since their implementation (node.cpp) is not under [src/].  The
    detectors are a [std::map<int, ...>]: a list of entries sorted by
    strictly increasing key, iterated in key order as [std::map] is.  Each
    callback runs under the node's mutexes, so the model runs them as
    atomic steps.  A frame pass runs [analyseImage] once, then [detect] on
    every detector against the same shared state, and emits the
    publications of the detectors that found their tag ([publish] is
    modelled from the spec and the class documentation of node.hpp, lines
    32-34, since [publish_pose_tf] and [publish_pose_topic] are defined in
    node.cpp).  [node_step] and
    [node_reachable] are the interleavings of callbacks; [node_run] is a
    sequence of frames, each delivered by [frameCallback] and processed by
    a pass, over which the liveness of the node is proved. *)

From Stdlib Require Import String List Bool Arith ZArith QArith Lia Sorting.Sorted.
From S2P Require Import Prelude TagString Geometry Detector.
Import ListNotations.

Local Open Scope nat_scope.
Local Open Scope agimus_scope.

(** ** The detector map *)

(** The value of an entry: the detector and the names of the parent node and
    of the detected object's node. *)
Definition Entry := (DetectorAprilTag * (string * string))%type.

(** [std::map::operator[]] assignment: replace the value of an existing key,
    or insert the key at its place in the order. *)
Fixpoint map_insert (k : Z) (v : Entry) (m : list (Z * Entry)) : list (Z * Entry) :=
  match m with
  | [] => [(k, v)]
  | (k', v') :: m' =>
      if (k <? k')%Z then (k, v) :: m
      else if (k =? k')%Z then (k, v) :: m'
      else (k', v') :: map_insert k v m'
  end.

Fixpoint map_find (k : Z) (m : list (Z * Entry)) : option Entry :=
  match m with
  | [] => None
  | (k', v) :: m' => if (k =? k')%Z then Some v else map_find k m'
  end.

(** The keys are strictly increasing. *)
Definition map_sorted (m : list (Z * Entry)) : Prop :=
  StronglySorted (fun a b => (fst a < fst b)%Z) m.

(** ** The node *)

(** What the node hands to the ROS publishers for one posed tag. *)
Inductive Output :=
  | PublishTf (cMo : vpHomogeneousMatrix) (parent child : string) (stamp : Z)
  | PublishTopic (cMo : vpHomogeneousMatrix) (parent child : string) (stamp : Z).

Section Node.
Context `{PoseSolver} `{AprilTagEngine}.

(** The members of [Node] (node.hpp, lines 52-70) that the tracking logic
    reads or writes: the intrinsics, the gray image and its header's stamp,
    [_image_new], the detector map and the broadcast flags and postfix.
    The depth map [n_depth] and the shared recognition state [n_shared] are
    not members of [Node]: the first is the RGB-D input of the spec's data
    model, the second the static state the detectors share (detector.hpp
    is not under [src/]).  The ROS handles, topics, locks and services are
    not modelled; the locks become the atomicity of each callback. *)
Record Node := mkNode {
  n_cam_parameters : vpCameraParameters;
  n_gray_image : GrayImage;
  n_depth : DepthMap;
  n_stamp : Z;
  n_image_new : bool;
  n_detectors : list (Z * Entry);
  n_broadcast_tf : bool;
  n_broadcast_topic : bool;
  n_broadcast_tf_postfix : string;
  n_shared : Shared }.

Definition set_detectors (m : list (Z * Entry)) (n : Node) : Node :=
  mkNode (n_cam_parameters n) (n_gray_image n) (n_depth n) (n_stamp n)
    (n_image_new n) m (n_broadcast_tf n) (n_broadcast_topic n)
    (n_broadcast_tf_postfix n) (n_shared n).

(** [cameraInfoCallback]: the latest intrinsics. *)
Definition cameraInfoCallback (cam : vpCameraParameters) (n : Node) : Node :=
  mkNode cam (n_gray_image n) (n_depth n) (n_stamp n) (n_image_new n)
    (n_detectors n) (n_broadcast_tf n) (n_broadcast_topic n)
    (n_broadcast_tf_postfix n) (n_shared n).

(** [frameCallback]: store the image (with its depth and stamp) and mark
    it new. *)
Definition frameCallback (gray : GrayImage) (dm : DepthMap) (stamp : Z)
    (n : Node) : Node :=
  mkNode (n_cam_parameters n) gray dm stamp true (n_detectors n)
    (n_broadcast_tf n) (n_broadcast_topic n) (n_broadcast_tf_postfix n)
    (n_shared n).

(** [addAprilTagService]: a new detector in state [no_object] with the
    node's current intrinsics, under the tag's id. *)
Definition addAprilTagService (id : Z) (size : Q) (parent node_name : string)
    (n : Node) : Node :=
  set_detectors (map_insert id (DetectorAprilTag_new (n_cam_parameters n) id size,
                                (parent, node_name)) (n_detectors n)) n.

(** The publications of one posed tag: on /tf with the postfixed child
    name if [broadcastTf], on the topic if [broadcastTopic]. *)
Definition publish (n : Node) (d : DetectorAprilTag) (names : string * string) :
    list Output :=
  (if n_broadcast_tf n
   then [PublishTf (cMo d) (fst names) (snd names ++ n_broadcast_tf_postfix n) (n_stamp n)]
   else []) ++
  (if n_broadcast_topic n
   then [PublishTopic (cMo d) (fst names) (snd names) (n_stamp n)]
   else []).

(** [detect] on every detector, in key order, against one shared state. *)
Fixpoint detect_all (n : Node) (sh : Shared) (m : list (Z * Entry)) :
    option (list (Z * Entry) * list Output) :=
  match m with
  | [] => Some ([], [])
  | (k, (d, names)) :: m' =>
      '(ok, d') <- detect sh d ;;
      '(m'', outs) <- detect_all n sh m' ;;
      Some ((k, (d', names)) :: m'',
            (if ok then publish n d' names else []) ++ outs)
  end.

(** One pass of [spin]: nothing without a new image; otherwise the shared
    recognition once, every detector, and the image marked as consumed. *)
Definition spin_once (n : Node) : option (Node * list Output) :=
  if negb (n_image_new n) then Some (n, []) else
  let sh := snd (analyseImage (n_gray_image n) (n_depth n) (n_shared n)) in
  '(m, outs) <- detect_all n sh (n_detectors n) ;;
  Some (mkNode (n_cam_parameters n) (n_gray_image n) (n_depth n) (n_stamp n)
          false m (n_broadcast_tf n) (n_broadcast_topic n)
          (n_broadcast_tf_postfix n) sh, outs).

End Node.

(** ** The detector map *)

Lemma map_find_insert k k' v m :
  map_find k' (map_insert k v m) = if (k' =? k)%Z then Some v else map_find k' m.
Proof.
  induction m as [|[k0 v0] m IH]; simpl.
  - reflexivity.
  - destruct (Z.ltb_spec k k0); simpl.
    + destruct (Z.eqb_spec k' k); [reflexivity|]. reflexivity.
    + destruct (Z.eqb_spec k k0); simpl.
      * subst. destruct (Z.eqb_spec k' k0); reflexivity.
      * rewrite IH. destruct (Z.eqb_spec k' k0), (Z.eqb_spec k' k); subst; lia || reflexivity.
Qed.

Lemma map_insert_keys k v m :
  forall x, In x (map fst (map_insert k v m)) -> x = k \/ In x (map fst m).
Proof.
  induction m as [|[k0 v0] m IH]; simpl; intros x Hx.
  - intuition.
  - destruct (k <? k0)%Z; [simpl in Hx; intuition|].
    destruct (k =? k0)%Z; simpl in Hx; [intuition|].
    destruct Hx as [Hx|Hx]; [auto|]. destruct (IH x Hx); auto.
Qed.

(** Inserting keeps the keys strictly increasing. *)
Lemma map_insert_sorted k v m :
  map_sorted m -> map_sorted (map_insert k v m).
Proof.
  unfold map_sorted. induction 1 as [|[k0 v0] m Hm IH Hall]; simpl.
  - repeat constructor.
  - destruct (Z.ltb_spec k k0).
    + constructor; [constructor; assumption|].
      constructor; [simpl; lia|].
      eapply Forall_impl; [|exact Hall]. intros [k1 v1]; simpl; lia.
    + destruct (Z.eqb_spec k k0); subst.
      * constructor; assumption.
      * constructor; [exact IH|]. apply Forall_forall. intros [k1 v1] Hin.
        simpl. assert (Hk : In k1 (map fst (map_insert k v m)))
          by (apply (in_map fst) in Hin; exact Hin).
        destruct (map_insert_keys _ _ _ _ Hk) as [->|Hk1]; [lia|].
        apply in_map_iff in Hk1. destruct Hk1 as [[k2 v2] [Hk2 Hin2]].
        simpl in Hk2. subst k2.
        exact (proj1 (Forall_forall _ _) Hall _ Hin2).
Qed.

(** ** A frame pass *)

Section FramePass.
Context `{PoseSolver} `{AprilTagEngine}.

(** The new entry of a detector after a pass over [sh]: same key, same
    names, and the detector [detect] returns on its own. *)
Definition entry_step (sh : Shared) (e e' : Z * Entry) : Prop :=
  fst e = fst e' /\ snd (snd e) = snd (snd e') /\
  exists b, detect sh (fst (snd e)) = Some (b, fst (snd e')).

(** The publications a pass over [sh] must emit, in key order. *)
Definition expected_outputs (n : Node) (sh : Shared) (m : list (Z * Entry)) :
    list Output :=
  flat_map (fun e => match detect sh (fst (snd e)) with
                     | Some (true, d') => publish n d' (snd (snd e))
                     | _ => []
                     end) m.

Lemma detect_all_spec n sh m m' outs :
  detect_all n sh m = Some (m', outs) ->
  Forall2 (entry_step sh) m m' /\ outs = expected_outputs n sh m.
Proof.
  revert m' outs. induction m as [|[k [d names]] m IH]; intros m' outs Hd; simpl in Hd.
  - inv Hd. split; constructor.
  - destruct (detect sh d) as [[ok d']|] eqn:Ed; [|discriminate].
    destruct (detect_all n sh m) as [[m'' outs']|] eqn:Ea; [|discriminate].
    inv Hd. destruct (IH _ _ eq_refl) as [Hf ->]. split.
    + constructor; [|exact Hf]. repeat split. eexists. exact Ed.
    + unfold expected_outputs. simpl. rewrite Ed. destruct ok; reflexivity.
Qed.

Lemma spin_once_new n n' outs :
  n_image_new n = true -> spin_once n = Some (n', outs) ->
  let sh := snd (analyseImage (n_gray_image n) (n_depth n) (n_shared n)) in
  detect_all n sh (n_detectors n) = Some (n_detectors n', outs) /\
  n_shared n' = sh /\ n_image_new n' = false.
Proof.
  intros Hnew Hs. unfold spin_once in Hs. rewrite Hnew in Hs. simpl in Hs.
  simpl_opt. destruct p. inv Hs. simpl. auto.
Qed.

(** C20: a frame pass runs the recognition engine once and hands the same
    shared state to every detector: after it, each detector's entry keeps
    its key and names and holds what [detect] on that detector alone
    returns for the frame; the image is marked as consumed. *)
Theorem spin_once_detects_each n n' outs :
  n_image_new n = true -> spin_once n = Some (n', outs) ->
  let sh := snd (analyseImage (n_gray_image n) (n_depth n) (n_shared n)) in
  n_shared n' = sh /\ n_image_new n' = false /\
  Forall2 (entry_step sh) (n_detectors n) (n_detectors n').
Proof.
  intros Hnew Hs sh. destruct (spin_once_new _ _ _ Hnew Hs) as (Ha & Hsh & Hi).
  split; [exact Hsh|]. split; [exact Hi|].
  exact (proj1 (detect_all_spec _ _ _ _ _ Ha)).
Qed.

(** C21: a frame pass publishes, in key order, exactly the poses of the
    detectors whose [detect] succeeded on the frame: on /tf under the
    postfixed child name when [broadcastTf] is set and on the topic when
    [broadcastTopic] is set, with the frame's stamp. *)
Theorem spin_once_outputs n n' outs :
  n_image_new n = true -> spin_once n = Some (n', outs) ->
  outs = expected_outputs n
           (snd (analyseImage (n_gray_image n) (n_depth n) (n_shared n)))
           (n_detectors n).
Proof.
  intros Hnew Hs. destruct (spin_once_new _ _ _ Hnew Hs) as (Ha & _ & _).
  exact (proj2 (detect_all_spec _ _ _ _ _ Ha)).
Qed.

(** [addAprilTagService] registers under the tag's id a fresh detector
    in state [no_object], without points, with the node's current
    intrinsics and the given names; the other entries are unchanged. *)
Theorem addAprilTagService_find id size parent node_name n k :
  map_find k (n_detectors (addAprilTagService id size parent node_name n)) =
  if (k =? id)%Z
  then Some (DetectorAprilTag_new (n_cam_parameters n) id size, (parent, node_name))
  else map_find k (n_detectors n).
Proof. apply map_find_insert. Qed.

Lemma map_sorted_keys (m : list (Z * Entry)) :
  map_sorted m <-> StronglySorted Z.lt (map fst m).
Proof.
  unfold map_sorted. induction m as [|e m IH]; simpl.
  - split; constructor.
  - split; intros Hs; inversion Hs as [|x l Hl Hf]; subst; constructor.
    + apply IH, Hl.
    + apply Forall_map. exact Hf.
    + apply IH, Hl.
    + rewrite Forall_map in Hf. exact Hf.
Qed.

Lemma entry_step_keys sh m m' :
  Forall2 (entry_step sh) m m' -> map fst m = map fst m'.
Proof. induction 1 as [|e e' m m' [Hk _] _ IH]; simpl; congruence. Qed.

(** The detector map of the node keeps strictly increasing keys, as
    a [std::map]'s are: registering a tag and a frame pass both preserve
    it. *)
Theorem node_detectors_sorted n id size parent node_name :
  map_sorted (n_detectors n) ->
  map_sorted (n_detectors (addAprilTagService id size parent node_name n)) /\
  forall n' outs, spin_once n = Some (n', outs) -> map_sorted (n_detectors n').
Proof.
  intros Hs. split; [apply map_insert_sorted, Hs|].
  intros n' outs Hspin. destruct (n_image_new n) eqn:Hnew.
  - destruct (spin_once_new _ _ _ Hnew Hspin) as (Ha & _ & _).
    apply detect_all_spec, proj1, entry_step_keys in Ha.
    apply map_sorted_keys. rewrite <- Ha. apply map_sorted_keys, Hs.
  - unfold spin_once in Hspin. rewrite Hnew in Hspin. inv Hspin. exact Hs.
Qed.

(** Each image is processed at most once: after a pass, the next
    pass without a new frame changes nothing and publishes nothing. *)
Theorem spin_once_consumes n n' outs :
  spin_once n = Some (n', outs) -> spin_once n' = Some (n', []).
Proof.
  intros Hs. destruct (n_image_new n) eqn:Hnew.
  - destruct (spin_once_new _ _ _ Hnew Hs) as (_ & _ & Hi).
    unfold spin_once. rewrite Hi. reflexivity.
  - unfold spin_once in Hs |- *. rewrite Hnew in Hs. inv Hs. rewrite Hnew. reflexivity.
Qed.

Lemma detect_all_None n sh m :
  detect_all n sh m = None <-> Exists (fun e => detect sh (fst (snd e)) = None) m.
Proof.
  induction m as [|[k [d names]] m IH]; simpl.
  - split; [discriminate | intros Hx; inversion Hx].
  - rewrite Exists_cons, <- IH. cbn [fst snd].
    destruct (detect sh d) as [[ok d']|]; [|split; [left|]; reflexivity].
    destruct (detect_all n sh m) as [[m'' outs]|].
    + split; [discriminate | intros [Hx|Hx]; discriminate].
    + split; [right|]; reflexivity.
Qed.

(** A pass over a new image is undefined exactly when the [detect] of
    some registered detector is: the out-of-range read of one detector
    (a polygon of fewer than four corners) is not confined to its own
    entry, and nothing else makes a pass undefined. *)
Theorem spin_once_undefined_iff n :
  spin_once n = None <->
  n_image_new n = true /\
  Exists (fun e => detect (snd (analyseImage (n_gray_image n) (n_depth n) (n_shared n)))
                          (fst (snd e)) = None)
         (n_detectors n).
Proof.
  unfold spin_once. destruct (n_image_new n); cbn [negb].
  - rewrite <- (detect_all_None n).
    destruct (detect_all _ _ _) as [[m outs]|].
    + split; [discriminate | intros [_ Hx]; discriminate].
    + split; [split|]; reflexivity.
  - split; [discriminate | intros [Hx _]; discriminate].
Qed.

(** The spec's view of the pass of one entry over the detections [dets]:
    its step from the abstract state of the entry's detector, the tag
    visible when some detection carries the detector's id. *)
Definition spec_entry (dets : list Detection) (e : Z * Entry) : bool * Spec.AbsState :=
  Spec.step (abs_state (state (fst (snd e))))
    (existsb (matches_id (tag_id (fst (snd e)))) dets).

Lemma expected_outputs_spec n sh m m' :
  Forall2 (entry_step sh) m m' ->
  expected_outputs n sh m =
  flat_map (fun p => if fst (spec_entry (Apriltag_detector sh) (fst p))
                     then publish n (fst (snd (snd p))) (snd (snd (snd p))) else [])
    (combine m m').
Proof.
  induction 1 as [|[k [d nm]] [k' [d' nm']] m m' (Hk & Hn & b & Hd) _ IH];
    [reflexivity|].
  unfold expected_outputs in *. cbn [flat_map combine fst snd] in *. subst nm'.
  rewrite IH, Hd.
  assert (Hb : b = fst (spec_entry (Apriltag_detector sh) (k, (d, nm))))
    by exact (f_equal fst (detect_loop_refines _ _ _ _ _ Hd)).
  rewrite Hb. reflexivity.
Qed.

(** C29: a pass refines the spec's acquisition machine on the whole map:
    every entry keeps its key and names, and the abstraction of its new
    detector is the spec's step from the old one, where the tag is visible
    when some detection of the frame's image carries its id; and the pass
    publishes, in key order, the pose of the updated detector of exactly
    the entries whose spec step reports the tag found. *)
Theorem spin_once_refines_spec n n' outs :
  n_image_new n = true -> spin_once n = Some (n', outs) ->
  let dets := engine_detect (n_gray_image n) in
  Forall2 (fun e e' => fst e = fst e' /\ snd (snd e) = snd (snd e') /\
             abs_state (state (fst (snd e'))) = snd (spec_entry dets e))
    (n_detectors n) (n_detectors n') /\
  outs = flat_map (fun p => if fst (spec_entry dets (fst p))
                            then publish n (fst (snd (snd p))) (snd (snd (snd p))) else [])
           (combine (n_detectors n) (n_detectors n')).
Proof.
  intros Hnew Hs dets. destruct (spin_once_new _ _ _ Hnew Hs) as (Ha & _ & _).
  destruct (detect_all_spec _ _ _ _ _ Ha) as [Hst ->]. split.
  - eapply Forall2_impl; [|exact Hst].
    intros e e' (Hk & Hn & b & Hd). split; [exact Hk|]. split; [exact Hn|].
    exact (f_equal snd (detect_loop_refines _ _ _ _ _ Hd)).
  - exact (expected_outputs_spec _ _ _ _ Hst).
Qed.

End FramePass.

(** ** Runs of the node *)

(** Each entry is registered under its detector's own id, and each detector
    satisfies the between-frames invariant of [Detector]. *)
Definition entry_ok (e : Z * Entry) : Prop :=
  tag_id (fst (snd e)) = fst e /\ det_wf (fst (snd e)).

Definition node_inv {E : AprilTagEngine} (n : Node) : Prop :=
  map_sorted (n_detectors n) /\ Forall entry_ok (n_detectors n).

Lemma map_insert_Forall (P : Z * Entry -> Prop) k v m :
  Forall P m -> P (k, v) -> Forall P (map_insert k v m).
Proof.
  induction 1 as [|[k0 v0] m H0 Hm IH]; simpl; intros Hkv; [auto|].
  destruct (k <? k0)%Z; [auto|]. destruct (k =? k0)%Z; auto.
Qed.

Section Runs.
Context `{PoseSolver} `{AprilTagEngine}.

(** The callbacks and the spin pass, each atomic under the node's locks,
    interleaved in any order. *)
Inductive node_step : Node -> Node -> Prop :=
  | step_camera_info cam n : node_step n (cameraInfoCallback cam n)
  | step_frame gray dm stamp n : node_step n (frameCallback gray dm stamp n)
  | step_add_tag id size parent node_name n :
      node_step n (addAprilTagService id size parent node_name n)
  | step_spin n n' outs : spin_once n = Some (n', outs) -> node_step n n'.

(** The nodes a run reaches from a node with no detector. *)
Inductive node_reachable (n0 : Node) : Node -> Prop :=
  | node_reach_init : n_detectors n0 = [] -> node_reachable n0 n0
  | node_reach_step n n' : node_reachable n0 n -> node_step n n' -> node_reachable n0 n'.

(** The recognition engine reports four-corner polygons on every image
    (the spec's data model, section 3); C22 is proved under this
    assumption, which becomes its first hypothesis. *)
Hypothesis engine_quads : forall gray, quads (engine_detect gray).

Lemma detect_all_ok n sh m m' outs :
  quads (Apriltag_detector sh) -> detect_all n sh m = Some (m', outs) ->
  Forall entry_ok m -> Forall entry_ok m'.
Proof.
  intros Hq Ha Hm. apply detect_all_spec, proj1 in Ha.
  induction Ha as [|e e' m m' (Hk & _ & b & Hd) _ IH]; [constructor|].
  inv Hm. constructor; [|auto].
  destruct (detect_wf _ _ _ _ Hq Hd) as (Hwf & Hid & _).
  unfold entry_ok in *. rewrite <- Hk, Hid. intuition.
Qed.

Lemma detect_all_defined n sh m :
  quads (Apriltag_detector sh) -> detect_all n sh m <> None.
Proof.
  intros Hq. induction m as [|[k [d names]] m IH]; simpl; [discriminate|].
  destruct (detect sh d) as [[ok d']|] eqn:Ed;
    [|exfalso; exact (detect_defined _ _ Hq Ed)].
  destruct (detect_all n sh m) as [[m'' outs]|]; [discriminate | contradiction].
Qed.

Lemma node_step_inv n n' : node_inv n -> node_step n n' -> node_inv n'.
Proof.
  intros [Hs Hok] Hstep. destruct Hstep as [cam n|gray dm stamp n|id size parent nn n|n n' outs Hspin].
  - split; assumption.
  - split; assumption.
  - split; [apply map_insert_sorted, Hs|].
    apply map_insert_Forall; [exact Hok|]. unfold entry_ok, det_wf. simpl. auto.
  - destruct (n_image_new n) eqn:Hnew.
    + destruct (spin_once_new _ _ _ Hnew Hspin) as (Ha & _ & _). split.
      * pose proof Ha as Hk. apply detect_all_spec, proj1, entry_step_keys in Hk.
        apply map_sorted_keys. rewrite <- Hk. apply map_sorted_keys, Hs.
      * exact (detect_all_ok _ (snd (analyseImage (n_gray_image n) (n_depth n) (n_shared n)))
          _ _ _ (engine_quads _) Ha Hok).
    + unfold spin_once in Hspin. rewrite Hnew in Hspin. inv Hspin. split; assumption.
Qed.

(** C22: for an engine that reports four-corner polygons on every image
    ([engine_quads]), along any interleaving of camera-info, frame, add-tag
    and spin events from a node without detectors, every detector of the
    map is registered under its own tag id and holds no image points
    without an object and four with one. *)
Theorem node_reachable_inv n0 n :
  node_reachable n0 n -> Forall entry_ok (n_detectors n).
Proof.
  intros Hr. enough (Hinv : node_inv n) by exact (proj2 Hinv).
  induction Hr as [Hnil|n n' _ IH Hstep].
  - unfold node_inv, map_sorted. rewrite Hnil. split; constructor.
  - exact (node_step_inv _ _ IH Hstep).
Qed.

(** With such an engine every spin pass is defined. *)
Lemma spin_once_defined n : spin_once n <> None.
Proof.
  unfold spin_once. destruct (negb (n_image_new n)); [discriminate|].
  destruct (detect_all n _ (n_detectors n)) as [[m outs]|] eqn:Ea;
    [discriminate | intros _; exact (detect_all_defined _ (snd (analyseImage (n_gray_image n)
                   (n_depth n) (n_shared n))) _ (engine_quads _) Ea)].
Qed.

End Runs.

(** ** Liveness of the node *)

Lemma map_find_In k v m : map_find k m = Some v -> In (k, v) m.
Proof.
  induction m as [|[k' v'] m IH]; simpl; [discriminate|].
  destruct (Z.eqb_spec k k'); [intros Hv; inv Hv; auto | auto].
Qed.

Section NodeLiveness.
Context `{PoseSolver} `{AprilTagEngine}.

(** Frames delivered by [frameCallback], each followed by a pass of
    [spin]: the node after every pass, with that pass's publications. *)
Fixpoint node_run (frames : list (GrayImage * DepthMap * Z)) (n : Node) :
    option (list (Node * list Output)) :=
  match frames with
  | [] => Some []
  | (gray, dm, stamp) :: frames =>
      ' (n1, outs) <- spin_once (frameCallback gray dm stamp n) ;;
      passes <- node_run frames n1 ;;
      Some ((n1, outs) :: passes)
  end.

(** The frame's image shows tag [k] and all its polygons have four
    corners. *)
Definition shows (k : Z) (f : GrayImage * DepthMap * Z) : Prop :=
  visible k (snd (analyseImage (fst (fst f)) (snd (fst f)) (mkShared [] []))).

(** The passes of a run track the entry of key [k], whose detector starts
    in state [s]: after each pass the map holds, under [k] and the same
    names, a detector in state [acquire] of the previous one, and when
    [topic] is set the pass publishes the pose of that stored detector on
    the topic with the frame's stamp. *)
Fixpoint tracked (k : Z) (names : string * string) (topic : bool) (s : State)
    (frames : list (GrayImage * DepthMap * Z)) (passes : list (Node * list Output)) : Prop :=
  match frames, passes with
  | [], [] => True
  | f :: frames, p :: passes =>
      exists d, map_find k (n_detectors (fst p)) = Some (d, names) /\
        state d = acquire s /\
        (topic = true -> In (PublishTopic (cMo d) (fst names) (snd names) (snd f)) (snd p)) /\
        tracked k names topic (acquire s) frames passes
  | _, _ => False
  end.

(** A pass keeps the entry of each key, with its detector after
    [detect]. *)
Lemma entry_step_find sh m m' k d names :
  Forall2 (entry_step sh) m m' -> map_find k m = Some (d, names) ->
  exists b d', map_find k m' = Some (d', names) /\ detect sh d = Some (b, d').
Proof.
  induction 1 as [|[k0 [d0 nm0]] [k1 [d1 nm1]] m m' (Hk & Hn & b & Hd) _ IH];
    simpl in *; [discriminate|].
  subst k1 nm1. destruct (Z.eqb_spec k k0); [intros Hv; inv Hv; eauto | exact IH].
Qed.

Lemma expected_outputs_incl n sh m k d d' names :
  In (k, (d, names)) m -> detect sh d = Some (true, d') ->
  incl (publish n d' names) (expected_outputs n sh m).
Proof.
  intros Hin Hd x Hx. unfold expected_outputs. apply in_flat_map.
  exists (k, (d, names)). simpl. rewrite Hd. auto.
Qed.

Lemma publish_topic n d names :
  n_broadcast_topic n = true ->
  In (PublishTopic (cMo d) (fst names) (snd names) (n_stamp n)) (publish n d names).
Proof. intros Ht. unfold publish. rewrite Ht. apply in_or_app. right. left. reflexivity. Qed.

(** One frame showing tag [k]: the pass is defined, the detector of [k]
    succeeds and moves by [acquire], and the pass publishes its pose. *)
Lemma frame_pass_tracks n gray dm stamp k d names :
  map_find k (n_detectors n) = Some (d, names) -> tag_id d = k ->
  shows k (gray, dm, stamp) ->
  exists n1 outs d1,
    spin_once (frameCallback gray dm stamp n) = Some (n1, outs) /\
    map_find k (n_detectors n1) = Some (d1, names) /\
    state d1 = acquire (state d) /\ tag_id d1 = k /\
    n_broadcast_topic n1 = n_broadcast_topic n /\
    (n_broadcast_topic n = true ->
     In (PublishTopic (cMo d1) (fst names) (snd names) stamp) outs).
Proof.
  intros Hf Hid Hs. set (n0 := frameCallback gray dm stamp n).
  set (sh := snd (analyseImage gray dm (n_shared n0))).
  assert (Hq : quads (Apriltag_detector sh)) by apply Hs.
  destruct (detect_all n0 sh (n_detectors n0)) as [[m' outs]|] eqn:Ea;
    [|exfalso; exact (detect_all_defined _ _ _ Hq Ea)].
  destruct (detect_all_spec _ _ _ _ _ Ea) as [Hst Hout].
  destruct (entry_step_find _ _ _ _ _ _ Hst Hf) as (b & d1 & Hf1 & Hd).
  destruct (detect_visible sh d) as (d2 & Hd2 & Hs2 & Hid2); [rewrite Hid; exact Hs|].
  rewrite Hd in Hd2. inv Hd2.
  eexists _, _, d2. unfold spin_once. replace (n_image_new n0) with true by reflexivity.
  change (snd (analyseImage (n_gray_image n0) (n_depth n0) (n_shared n0))) with sh.
  cbn [negb]. rewrite Ea. split; [reflexivity|]. split; [exact Hf1|].
  split; [exact Hs2|]. split; [congruence|]. split; [reflexivity|].
  intros Ht.
  apply (expected_outputs_incl n0 sh _ _ d d2 names (map_find_In _ _ _ Hf) Hd).
  exact (publish_topic n0 d2 names Ht).
Qed.

(** C25: liveness of the node, composed from the callbacks, the spin
    pass and [detect]: over any run of frames that all show the tag of a
    registered detector (with four-corner polygons), every pass is
    defined; after each pass the map holds the tag's detector under its
    key and names, in state [acquire] of its state before the pass (so
    [already_acquired_object] from the second frame on); and when
    [broadcastTopic] is set each pass publishes on the topic the pose of
    the detector it stored, with the frame's stamp. *)
Theorem node_run_tracks frames n k d names :
  map_find k (n_detectors n) = Some (d, names) -> tag_id d = k ->
  Forall (shows k) frames ->
  exists passes, node_run frames n = Some passes /\
    tracked k names (n_broadcast_topic n) (state d) frames passes.
Proof.
  revert n d. induction frames as [|[[gray dm] stamp] frames IH];
    intros n d Hf Hid Hs; [exists []; split; reflexivity|].
  apply Forall_cons_iff in Hs as [Hshow Hrest].
  destruct (frame_pass_tracks n gray dm stamp k d names Hf Hid Hshow)
    as (n1 & outs & d1 & Hspin & Hf1 & Hs1 & Hid1 & Ht1 & Hpub).
  destruct (IH n1 d1 Hf1 Hid1 Hrest) as (passes & Hr & Htr).
  exists ((n1, outs) :: passes). simpl. rewrite Hspin, Hr. split; [reflexivity|].
  exists d1. split; [exact Hf1|]. split; [exact Hs1|]. split; [exact Hpub|].
  rewrite <- Hs1, <- Ht1. exact Htr.
Qed.

End NodeLiveness.

(** ** Witnesses *)

Definition demo_node : @Node demo_engine :=
  @mkNode demo_engine demo_cam true [[1%Q]] 42 true
    [(3%Z, (demo_detector, ("camera"%string, "tag3"%string)))]
    true true "_tf"%string (mkShared [] []).

Lemma spin_once_detects_each_witness :
  exists n' outs,
    n_image_new demo_node = true /\
    @spin_once demo_solver demo_engine demo_node = Some (n', outs) /\
    let sh := snd (analyseImage (n_gray_image demo_node) (n_depth demo_node)
                    (n_shared demo_node)) in
    n_shared n' = sh /\ n_image_new n' = false /\
    Forall2 (@entry_step demo_solver sh) (n_detectors demo_node) (n_detectors n').
Proof.
  destruct (@spin_once demo_solver demo_engine demo_node) as [[n' outs]|] eqn:E;
    [|vm_compute in E; discriminate E].
  exists n', outs. split; [reflexivity|]. split; [reflexivity|].
  apply (@spin_once_detects_each demo_solver demo_engine demo_node n' outs);
    [reflexivity | exact E].
Defined.

Lemma spin_once_outputs_witness :
  exists n' outs,
    n_image_new demo_node = true /\
    @spin_once demo_solver demo_engine demo_node = Some (n', outs) /\
    outs = @expected_outputs demo_solver demo_engine demo_node
             (snd (analyseImage (n_gray_image demo_node) (n_depth demo_node)
                     (n_shared demo_node)))
             (n_detectors demo_node).
Proof.
  destruct (@spin_once demo_solver demo_engine demo_node) as [[n' outs]|] eqn:E;
    [|vm_compute in E; discriminate E].
  exists n', outs. split; [reflexivity|]. split; [reflexivity|].
  apply (@spin_once_outputs demo_solver demo_engine demo_node n' outs);
    [reflexivity | exact E].
Defined.

Lemma node_reachable_inv_witness :
  let n0 := set_detectors [] demo_node in
  let n1 := addAprilTagService 3 (1 # 10) "camera" "tag3" n0 in
  @node_reachable demo_solver demo_engine n0 n1 /\ Forall entry_ok (n_detectors n1).
Proof.
  intros n0 n1.
  assert (Hr : @node_reachable demo_solver demo_engine n0 n1).
  { apply (node_reach_step _ n0); [apply node_reach_init; reflexivity|].
    apply step_add_tag. }
  split; [exact Hr|].
  exact (@node_reachable_inv demo_solver demo_engine demo_engine_quads _ _ Hr).
Defined.

(** Two frames showing tag 3, stamped 1 and 2. *)
Definition demo_node_frames : list (bool * DepthMap * Z) :=
  [(true, [[1%Q]], 1%Z); (true, [[1%Q]], 2%Z)].

Lemma node_run_tracks_witness :
  map_find 3 (n_detectors demo_node) = Some (demo_detector, ("camera"%string, "tag3"%string)) /\
  tag_id demo_detector = 3%Z /\
  Forall (@shows demo_engine 3) demo_node_frames /\
  exists passes,
    @node_run demo_solver demo_engine demo_node_frames demo_node = Some passes /\
    @tracked demo_engine 3 ("camera"%string, "tag3"%string) (n_broadcast_topic demo_node)
      (state demo_detector) demo_node_frames passes.
Proof.
  assert (Hf : map_find 3 (n_detectors demo_node) =
               Some (demo_detector, ("camera"%string, "tag3"%string))) by reflexivity.
  assert (Hs : Forall (@shows demo_engine 3) demo_node_frames)
    by (repeat constructor; vm_compute; reflexivity).
  split; [exact Hf|]. split; [reflexivity|]. split; [exact Hs|].
  exact (@node_run_tracks demo_solver demo_engine demo_node_frames demo_node 3
           demo_detector _ Hf eq_refl Hs).
Defined.

Lemma spin_once_refines_spec_witness :
  exists n' outs,
    n_image_new demo_node = true /\
    @spin_once demo_solver demo_engine demo_node = Some (n', outs) /\
    let dets := @engine_detect demo_engine (n_gray_image demo_node) in
    Forall2 (fun e e' => fst e = fst e' /\ snd (snd e) = snd (snd e') /\
               abs_state (state (fst (snd e'))) = snd (spec_entry dets e))
      (n_detectors demo_node) (n_detectors n') /\
    outs = flat_map (fun p => if fst (spec_entry dets (fst p))
                              then publish demo_node (fst (snd (snd p))) (snd (snd (snd p)))
                              else [])
             (combine (n_detectors demo_node) (n_detectors n')).
Proof.
  destruct (@spin_once demo_solver demo_engine demo_node) as [[n' outs]|] eqn:E;
    [|vm_compute in E; discriminate E].
  exists n', outs. split; [reflexivity|]. split; [reflexivity|].
  exact (@spin_once_refines_spec demo_solver demo_engine demo_node n' outs eq_refl E).
Defined.
